(** * Stripe webhook module: registration and dispatch

    A shallow embedding of [packages/stripe/src/stripe.module.ts] and
    [packages/stripe/src/stripe.payload.service.ts].

    - JavaScript values that may be [undefined] are [option]s; truthiness
      of an optional string is [truthy].
    - A promise is [Pending] or [Settled] with an [Outcome]; the order in
      which the handlers' promises settle is chosen by the event loop and
      is an explicit schedule here.
    - [onModuleInit] runs in a small state-and-exception monad whose state
      holds the log, the discovery queries issued, and the heap of webhook
      service objects the module writes its dispatch closures to. *)

From stdpp Require Import base option list strings pretty gmap.
From Stdlib Require Import Permutation.

Open Scope string_scope.
Open Scope list_scope.

(** ** Configuration ([stripe.interfaces.ts], as used by the two files) *)

Record StripeSecrets := {
  account : option string;
  connect : option string
}.

Record LoggingConfiguration := {
  logMatchingEventHandlers : option bool
}.

Record WebhookConfig := {
  stripeSecrets : StripeSecrets;
  loggingConfiguration : option LoggingConfiguration
}.

Record StripeModuleConfig := {
  apiKey : string;
  webhookConfig : option WebhookConfig
}.

(** JavaScript truthiness of a [string | undefined]: [undefined] and the
    empty string are falsy. *)
Definition truthy (s : option string) : bool :=
  match s with
  | Some EmptyString => false
  | Some _ => true
  | None => false
  end.

(** [s || ''] *)
Definition orEmptyString (s : option string) : string :=
  if truthy s then default "" s else "".

(** ** [StripePayloadService] *)

Module StripePayloadService.

Record t := {
  stripeWebhookSecret : string;
  stripeConnectWebhookSecret : string
}.

(** The constructor: [this.config.webhookConfig?.stripeSecrets.account || ''],
    and the same for [connect]. *)
Definition new (config : StripeModuleConfig) : t :=
  {| stripeWebhookSecret :=
       orEmptyString (wc ← webhookConfig config; account (stripeSecrets wc));
     stripeConnectWebhookSecret :=
       orEmptyString (wc ← webhookConfig config; connect (stripeSecrets wc)) |}.

Section Verifier.
(** [stripeClient.webhooks.constructEvent(payload, signature, secret)]:
    the verifier of the Stripe SDK, which either returns an event or
    throws. *)
Context {Payload Event : Type}.
Variable constructEvent : Payload → string → string → Event.

(** [webhookType] is a string at run time; the TypeScript type
    ['account' | 'connect'] is not enforced there. *)
Definition tryHydratePayload (this : t)
    (signature : string) (payload : Payload) (webhookType : string) : Event :=
  constructEvent payload signature
    (if decide (webhookType = "account")
     then stripeWebhookSecret this
     else stripeConnectWebhookSecret this).
End Verifier.

End StripePayloadService.

(** ** Events, promises and bound handlers *)

Record WebhookEvent := {
  type : string;
  data : string   (* the provider-defined rest of the event *)
}.

Inductive Outcome :=
| Fulfilled
| Rejected (reason : string).

Inductive Promise :=
| Pending
| Settled (o : Outcome).

(** Objects the container hands out, by reference. [instanceof
    StripeWebhookService] holds of the first kind only. *)
Inductive Instance :=
| StripeWebhookServiceObj (ref : nat)
| ProviderObj (ref : nat).

(** The callable returned by
    [externalContextCreator.create(instance, callback, methodName, ...,
    'stripe_webhook')], as the values it closes over. It is an async
    function: calling it never throws, it returns a promise, and that
    promise settles to what the method does with the event. *)
Record Handler := {
  instance : option Instance;
  callback : WebhookEvent → Outcome;
  methodName : string;
  contextType : string
}.

Definition create (instance : option Instance) (callback : WebhookEvent → Outcome)
    (methodName contextType : string) : Handler :=
  {| instance := instance; callback := callback;
     methodName := methodName; contextType := contextType |}.

(** [{ key: eventType, handler: ... }] *)
Record Binding := {
  key : string;
  handler : Handler
}.

(** ** One call of a dispatch function *)

Inductive Effect :=
| Log (message : string)
| Invoke (h : Handler) (ev : WebhookEvent)
| AwaitAll (n : nat).

(** A handler that was invoked, and the promise it returned. *)
Record Invocation := {
  callee : Handler;
  argument : WebhookEvent;
  promise : Promise
}.

(** The state of one call: what it has done so far, in program order, the
    promises handed to [Promise.all], and the promise the async function
    itself returned to its caller. *)
Record Call := {
  effects : list Effect;
  invocations : list Invocation;
  returned : Promise
}.

Section Dispatch.
(** [this.stripeModuleConfig] *)
Variable stripeModuleConfig : StripeModuleConfig.

(** [this.stripeModuleConfig?.webhookConfig?.loggingConfiguration
      ?.logMatchingEventHandlers] as a condition. *)
Definition logMatching : bool :=
  default false
    (wc ← webhookConfig stripeModuleConfig;
     lc ← loggingConfiguration wc;
     logMatchingEventHandlers lc).

(** [handlers.map((x) => x.handler(webhookEvent))]: every handler is
    called, left to right, and each call returns a pending promise. *)
Definition invokeAll (handlers : list Binding) (webhookEvent : WebhookEvent)
    : list Effect * list Invocation :=
  (map (λ x, Invoke (handler x) webhookEvent) handlers,
   map (λ x, {| callee := handler x; argument := webhookEvent;
                promise := Pending |}) handlers).

(** Each dispatch function runs up to its [await]: with no matching
    handler it falls off its end and the returned promise is fulfilled,
    otherwise it is pending on [Promise.all]. *)
Definition handleWebhook (webhookHandlers : list Binding)
    (webhookEvent : WebhookEvent) : Call :=
  let type := type webhookEvent in
  let handlers := filter (λ x, key x = type) webhookHandlers in
  if decide (length handlers = 0) then
    {| effects := []; invocations := []; returned := Settled Fulfilled |}
  else
    let logged :=
      if logMatching then
        [Log ("Received webhook event for " +:+ type +:+
              ". Forwarding to " +:+ pretty (length handlers) +:+
              " event handlers")]
      else [] in
    let '(invoked, promises) := invokeAll handlers webhookEvent in
    {| effects := logged ++ invoked ++ [AwaitAll (length promises)];
       invocations := promises;
       returned := Pending |}.

Definition ConnectHandleWebhook (ConnectWebhookHandlers : list Binding)
    (webhookEvent : WebhookEvent) : Call :=
  let type := type webhookEvent in
  let handlers := filter (λ x, key x = type) ConnectWebhookHandlers in
  if decide (length handlers = 0) then
    {| effects := []; invocations := []; returned := Settled Fulfilled |}
  else
    let logged :=
      if logMatching then
        [Log ("Received connect webhook event for " +:+ type +:+
              ". Forwarding to " +:+ pretty (length handlers) +:+
              " event handlers")]
      else [] in
    let '(invoked, promises) := invokeAll handlers webhookEvent in
    {| effects := logged ++ invoked ++ [AwaitAll (length promises)];
       invocations := promises;
       returned := Pending |}.
End Dispatch.

(** ** The event loop

    [Promise.all] rejects with the reason of the first of its promises to
    reject, and is fulfilled once every one of them is fulfilled. The
    awaiting dispatch function has nothing after its [await], so its own
    promise settles the same way; the few microtasks in between are folded
    into the step that settles the handler. *)

Definition fulfilled (inv : Invocation) : bool :=
  match promise inv with
  | Settled Fulfilled => true
  | _ => false
  end.

Definition settled (inv : Invocation) : bool :=
  match promise inv with
  | Settled _ => true
  | Pending => false
  end.

(** The [i]-th invoked handler finishes. *)
Definition settle (c : Call) (i : nat) : Call :=
  match invocations c !! i with
  | Some inv =>
      match promise inv with
      | Pending =>
          let o := callback (callee inv) (argument inv) in
          let invs :=
            <[i := {| callee := callee inv; argument := argument inv;
                      promise := Settled o |}]> (invocations c) in
          {| effects := effects c;
             invocations := invs;
             returned :=
               match returned c, o with
               | Pending, Rejected r => Settled (Rejected r)
               | Pending, Fulfilled =>
                   if forallb fulfilled invs then Settled Fulfilled else Pending
               | Settled s, _ => Settled s
               end |}
      | Settled _ => c
      end
  | None => c
  end.

(** A schedule lists the handlers in the order in which they finish; a
    handler it does not list is still running. *)
Definition run (schedule : list nat) (c : Call) : Call :=
  foldl settle c schedule.

(** ** Discovery *)

(** Modelled from the spec: [stripe.constants.ts] is not among the sources;
    the three metadata keys are taken as distinct markers ("the marker
    distinguishes primary-webhook handlers from connect-webhook handlers",
    and a third one marks the webhook service). *)
Inductive MetaKey :=
| STRIPE_WEBHOOK_SERVICE
| STRIPE_WEBHOOK_HANDLER
| STRIPE_CONNECT_WEBHOOK_HANDLER.

Global Instance MetaKey_eq_dec : EqDecision MetaKey.
Proof. solve_decision. Defined.

(** What [DiscoveryService] of [@golevelup/nestjs-discovery] returns. *)
Module Discovered.
Record Class := {
  name : string;
  instance : option Instance
}.

Record Method := {
  handler : WebhookEvent → Outcome;
  methodName : string;
  parentClass : Class
}.

Record ClassWithMeta := {
  discoveredClass : Class;
  classMeta : bool
}.

Record MethodWithMeta := {
  discoveredMethod : Method;
  meta : string
}.
End Discovered.

(** The two queries the module makes. The first may answer nothing at all
    (the source guards it with [|| []]). *)
Class DiscoveryService := {
  providersWithMetaAtKey :
    MetaKey → option (list Discovered.ClassWithMeta);
  providerMethodsWithMetaAtKey :
    MetaKey → list Discovered.MethodWithMeta
}.

(** ** lodash [groupBy], [Object.keys], [flatten]

    The grouped object keeps its keys in the order in which they were
    first inserted (class names are identifiers, never integer-like keys),
    and each group keeps the order of the collection. *)
Section Lodash.
Context {A : Type}.

Fixpoint pushTo (k : string) (x : A) (grouped : list (string * list A))
    : list (string * list A) :=
  match grouped with
  | [] => [(k, [x])]
  | (k', xs) :: rest =>
      if decide (k = k') then (k', xs ++ [x]) :: rest
      else (k', xs) :: pushTo k x rest
  end.

Definition groupBy (iteratee : A → string) (collection : list A)
    : list (string * list A) :=
  foldl (λ grouped x, pushTo (iteratee x) x grouped) [] collection.

Definition keys (grouped : list (string * list A)) : list string :=
  map fst grouped.

(** [grouped[x]] *)
Fixpoint get (grouped : list (string * list A)) (x : string) : list A :=
  match grouped with
  | [] => []
  | (k, xs) :: rest => if decide (x = k) then xs else get rest x
  end.
End Lodash.

Definition flatten {A} (ls : list (list A)) : list A := concat ls.

(** ** The webhook service object *)

(** A dispatch function is one of the two closures [onModuleInit] builds,
    as the table it closes over. *)
Inductive DispatchFn :=
| HandleWebhookFn (webhookHandlers : list Binding)
| ConnectHandleWebhookFn (ConnectWebhookHandlers : list Binding).

Module StripeWebhookService.
(** Modelled from the spec: [stripe.webhook.service.ts] is not among the
    sources; the object is "the component expected to receive wired-up
    dispatch functions", with one slot per namespace. A slot the module
    has not written holds [None]. *)
Record t := {
  handleWebhook : option DispatchFn;
  handleConnectWebhook : option DispatchFn
}.

Definition fresh : t :=
  {| handleWebhook := None; handleConnectWebhook := None |}.
End StripeWebhookService.

(** Calling a dispatch function. *)
Definition applyDispatchFn (config : StripeModuleConfig) (f : DispatchFn)
    (webhookEvent : WebhookEvent) : Call :=
  match f with
  | HandleWebhookFn webhookHandlers =>
      handleWebhook config webhookHandlers webhookEvent
  | ConnectHandleWebhookFn ConnectWebhookHandlers =>
      ConnectHandleWebhook config ConnectWebhookHandlers webhookEvent
  end.

(** ** The initialisation monad *)

Inductive InitEvent :=
| LoggerError (message : string)
| LoggerLog (message : string)
| ProvidersWithMetaAtKey (metaKey : MetaKey)
| ProviderMethodsWithMetaAtKey (metaKey : MetaKey).

Record World := {
  journal : list InitEvent;
  heap : gmap nat StripeWebhookService.t
}.

Inductive Completion (A : Type) :=
| Normal (a : A)
| Throw (message : string).
Arguments Normal {A} a.
Arguments Throw {A} message.

Definition Init (A : Type) : Type := World → Completion A * World.

Global Instance Init_ret : MRet Init := λ A a w, (Normal a, w).

Global Instance Init_bind : MBind Init := λ A B f m w,
  match m w with
  | (Normal a, w') => f a w'
  | (Throw message, w') => (Throw message, w')
  end.

Global Instance Init_fmap : FMap Init := λ A B f m, a ← m; mret (f a).

Definition throw {A} (message : string) : Init A := λ w, (Throw message, w).

Definition record (e : InitEvent) : Init unit := λ w,
  (Normal (), {| journal := journal w ++ [e]; heap := heap w |}).

Definition loggerError (message : string) : Init unit :=
  record (LoggerError message).

Definition loggerLog (message : string) : Init unit :=
  record (LoggerLog message).

(** [obj.handleWebhook = f] and [obj.handleConnectWebhook = f] on the
    service object at reference [r]. *)
Definition setHandleWebhook (r : nat) (f : DispatchFn) : Init unit := λ w,
  let obj := default StripeWebhookService.fresh (heap w !! r) in
  (Normal (),
   {| journal := journal w;
      heap := <[r := {| StripeWebhookService.handleWebhook := Some f;
                        StripeWebhookService.handleConnectWebhook :=
                          StripeWebhookService.handleConnectWebhook obj |}]>
              (heap w) |}).

Definition setHandleConnectWebhook (r : nat) (f : DispatchFn) : Init unit := λ w,
  let obj := default StripeWebhookService.fresh (heap w !! r) in
  (Normal (),
   {| journal := journal w;
      heap := <[r := {| StripeWebhookService.handleWebhook :=
                          StripeWebhookService.handleWebhook obj;
                        StripeWebhookService.handleConnectWebhook := Some f |}]>
              (heap w) |}).

(** ** [StripeModule.onModuleInit] *)

Section StripeModule.
(** The constructor's injected dependencies. *)
Context (discover : DiscoveryService).
Variable stripeModuleConfig : StripeModuleConfig.

Definition discoverProviders (metaKey : MetaKey)
    : Init (option (list Discovered.ClassWithMeta)) :=
  record (ProvidersWithMetaAtKey metaKey);;
  mret (providersWithMetaAtKey metaKey).

Definition discoverProviderMethods (metaKey : MetaKey)
    : Init (list Discovered.MethodWithMeta) :=
  record (ProviderMethodsWithMetaAtKey metaKey);;
  mret (providerMethodsWithMetaAtKey metaKey).

(** [({ discoveredMethod, meta: eventType }) => ({ key, handler })] *)
Definition toBinding (x : Discovered.MethodWithMeta) : Binding :=
  let discoveredMethod := Discovered.discoveredMethod x in
  let eventType := Discovered.meta x in
  {| key := eventType;
     handler :=
       create
         (Discovered.instance (Discovered.parentClass discoveredMethod))
         (Discovered.handler discoveredMethod)
         (Discovered.methodName discoveredMethod)
         "stripe_webhook" |}.

(** [flatten(Object.keys(grouped).map((x) => { log; return grouped[x].map(...) }))] *)
Definition register (registering : string)
    (grouped : list (string * list Discovered.MethodWithMeta))
    : Init (list Binding) :=
  flatten <$>
    mapM (λ x, loggerLog (registering +:+ x);;
               mret (map toBinding (get grouped x)))
         (keys grouped).

Definition onModuleInit : Init unit :=
  match webhookConfig stripeModuleConfig with
  | None => mret ()
  | Some webhookConfig =>
      let noOneSecretProvided :=
        negb (truthy (account (stripeSecrets webhookConfig))) &&
        negb (truthy (connect (stripeSecrets webhookConfig))) in
      if noOneSecretProvided then
        let errorMessage :=
          "missing stripe webhook secret. module is improperly configured and will be unable to process incoming webhooks from Stripe" in
        loggerError errorMessage;;
        throw errorMessage
      else
        loggerLog "Initializing Stripe Module for webhooks";;
        found ← discoverProviders STRIPE_WEBHOOK_SERVICE;
        let instances :=
          map (λ x, Discovered.instance (Discovered.discoveredClass x))
              (default [] found) in
        match head instances with
        | Some (Some (StripeWebhookServiceObj stripeWebhookService)) =>
            eventHandlerMeta ← discoverProviderMethods STRIPE_WEBHOOK_HANDLER;
            let grouped :=
              groupBy
                (λ x, Discovered.name
                        (Discovered.parentClass (Discovered.discoveredMethod x)))
                eventHandlerMeta in
            webhookHandlers ←
              register "Registering Stripe webhook handlers from " grouped;
            setHandleWebhook stripeWebhookService
              (HandleWebhookFn webhookHandlers);;
            (* CONNECT WEBHOOKS *)
            ConnectEventHandlerMeta ←
              discoverProviderMethods STRIPE_CONNECT_WEBHOOK_HANDLER;
            let ConnectGrouped :=
              groupBy
                (λ x, Discovered.name
                        (Discovered.parentClass (Discovered.discoveredMethod x)))
                ConnectEventHandlerMeta in
            ConnectWebhookHandlers ←
              register "Registering Stripe Connect webhook handlers from "
                ConnectGrouped;
            setHandleConnectWebhook stripeWebhookService
              (ConnectHandleWebhookFn ConnectWebhookHandlers)
        | _ => throw "Could not find instance of Stripe Webhook Service"
        end
  end.
End StripeModule.

(** ** A container to discover from

    The discovery service is a library outside this repository; this is
    its contract over an explicit list of providers. One method can carry
    both handler markers: the two decorators write to different keys. *)
Module Container.
Record Method := {
  methodName : string;
  body : WebhookEvent → Outcome;
  metadata : MetaKey → option string
}.

Record Provider := {
  name : string;
  instance : option Instance;
  classMetadata : MetaKey → option bool;
  methods : list Method
}.

Definition discoveredClass (p : Provider) : Discovered.Class :=
  {| Discovered.name := name p; Discovered.instance := instance p |}.

Definition discoveredMethod (p : Provider) (m : Method) : Discovered.Method :=
  {| Discovered.handler := body m;
     Discovered.methodName := methodName m;
     Discovered.parentClass := discoveredClass p |}.

Definition methodsWithMetaAtKey (metaKey : MetaKey) (p : Provider)
    : list Discovered.MethodWithMeta :=
  omap (λ m, eventType ← metadata m metaKey;
             Some {| Discovered.discoveredMethod := discoveredMethod p m;
                     Discovered.meta := eventType |})
       (methods p).

(** Modelled from the spec: the container side of the discovery contract,
    "enumerate components, enumerate their tagged methods" (section 6).
    [providersWithMetaAtKey] lists the providers whose class carries
    metadata at the key; [providerMethodsWithMetaAtKey] lists, provider
    by provider, the methods that carry metadata at the key, with that
    metadata as the payload. *)
Definition scan (providers : list Provider) : DiscoveryService :=
  {| providersWithMetaAtKey metaKey :=
       Some (omap (λ p, v ← classMetadata p metaKey;
                        Some {| Discovered.discoveredClass := discoveredClass p;
                                Discovered.classMeta := v |})
                  providers);
     providerMethodsWithMetaAtKey metaKey :=
       p ← providers; methodsWithMetaAtKey metaKey p |}.
End Container.


(** ** Vocabulary of the statements *)

Definition tableOf (f : DispatchFn) : list Binding :=
  match f with
  | HandleWebhookFn webhookHandlers => webhookHandlers
  | ConnectHandleWebhookFn ConnectWebhookHandlers => ConnectWebhookHandlers
  end.

(** The handlers registered for an event type, in table order. *)
Definition matching (eventType : string) (table : list Binding) : list Binding :=
  filter (λ x, key x = eventType) table.

(** What the promise returned by a handler settles to. *)
Definition outcomeOf (webhookEvent : WebhookEvent) (b : Binding) : Outcome :=
  callback (handler b) webhookEvent.

(** The handlers a call has invoked, in the order of the calls. *)
Definition invoked (es : list Effect) : list Handler :=
  omap (λ e, match e with Invoke h _ => Some h | _ => None end) es.

(** The promise of a handler that [schedule] has let finish, or not. *)
Definition invocationOf (webhookEvent : WebhookEvent) (schedule : list nat)
    (i : nat) (b : Binding) : Invocation :=
  {| callee := handler b;
     argument := webhookEvent;
     promise := if bool_decide (i ∈ schedule)
                then Settled (outcomeOf webhookEvent b) else Pending |}.

(** The reason of the first handler to finish with a rejection. *)
Definition rejection (handlers : list Binding) (webhookEvent : WebhookEvent)
    (i : nat) : option string :=
  match outcomeOf webhookEvent <$> handlers !! i with
  | Some (Rejected r) => Some r
  | _ => None
  end.

Definition firstRejection (handlers : list Binding)
    (webhookEvent : WebhookEvent) (schedule : list nat) : option string :=
  head (omap (rejection handlers webhookEvent) schedule).

(** Every one of [n] handlers has finished. *)
Definition allFinished (n : nat) (schedule : list nat) : bool :=
  forallb (λ i, bool_decide (i ∈ schedule)) (seq 0 n).

(** ** Scenarios *)

Definition primaryOnly : StripeModuleConfig :=
  {| apiKey := "sk_test";
     webhookConfig :=
       Some {| stripeSecrets := {| account := Some "whsec_a"; connect := None |};
               loggingConfiguration := None |} |}.

Definition invoicePaid : WebhookEvent :=
  {| type := "invoice.paid"; data := "{}" |}.

(** Two components each register a handler for [invoice.paid], and both
    succeed. *)
Definition invoicePaidBothFine : list Binding :=
  [ {| key := "invoice.paid";
       handler := create (Some (ProviderObj 1)) (λ _, Fulfilled)
                         "onInvoicePaid" "stripe_webhook" |};
    {| key := "invoice.paid";
       handler := create (Some (ProviderObj 2)) (λ _, Fulfilled)
                         "alsoOnInvoicePaid" "stripe_webhook" |} ].

(** The same, but the first one throws. *)
Definition invoicePaidTable : list Binding :=
  [ {| key := "invoice.paid";
       handler := create (Some (ProviderObj 1)) (λ _, Rejected "boom")
                         "onInvoicePaid" "stripe_webhook" |};
    {| key := "invoice.paid";
       handler := create (Some (ProviderObj 2)) (λ _, Fulfilled)
                         "alsoOnInvoicePaid" "stripe_webhook" |} ].

(** ** The dispatch claims as worded in the specification *)

(** "If one of N matching handlers throws/rejects, the remaining N-1 still
    run to completion and [routeEvent] still resolves (does not reject)." *)
Definition rejection_contained (config : StripeModuleConfig) (f : DispatchFn)
    (webhookEvent : WebhookEvent) : Prop :=
  let handlers := matching (type webhookEvent) (tableOf f) in
  (∃ b r, b ∈ handlers ∧ outcomeOf webhookEvent b = Rejected r) →
  ∀ schedule,
    let c := run schedule (applyDispatchFn config f webhookEvent) in
    (∀ i, i < length handlers → i ∈ schedule →
       ∃ inv, invocations c !! i = Some inv ∧ settled inv = true)
    ∧ ∀ r, returned c ≠ Settled (Rejected r).

(** "[routeEvent] resolves only after all N have settled (join-all)": the
    returned promise is never settled while a handler is still pending. *)
Definition join_all_barrier (config : StripeModuleConfig) (f : DispatchFn)
    (webhookEvent : WebhookEvent) : Prop :=
  ∀ schedule,
    let c := run schedule (applyDispatchFn config f webhookEvent) in
    returned c ≠ Pending → Forall (λ inv, settled inv = true) (invocations c).

(** The table the module builds from the answer to one discovery query. *)
Definition tableFrom (metas : list Discovered.MethodWithMeta) : list Binding :=
  let grouped :=
    groupBy (λ x, Discovered.name
                    (Discovered.parentClass (Discovered.discoveredMethod x)))
            metas in
  flatten (map (λ x, map toBinding (get grouped x)) (keys grouped)).

(** The registration log lines of one discovery pass. *)
Definition registrationLog (registering : string)
    (metas : list Discovered.MethodWithMeta) : list InitEvent :=
  let grouped :=
    groupBy (λ x, Discovered.name
                    (Discovered.parentClass (Discovered.discoveredMethod x)))
            metas in
  map (λ x, LoggerLog (registering +:+ x)) (keys grouped).

(** [const [stripeWebhookService] = (... || []).map((x) =>
    x.discoveredClass.instance)]: the first instance discovery reports. *)
Definition firstInstance (discover : DiscoveryService) : option (option Instance) :=
  head (map (λ x, Discovered.instance (Discovered.discoveredClass x))
            (default [] (providersWithMetaAtKey STRIPE_WEBHOOK_SERVICE))).

(** At least one of the two secrets is configured. *)
Definition someSecret (webhookConfig : WebhookConfig) : bool :=
  truthy (account (stripeSecrets webhookConfig)) ||
  truthy (connect (stripeSecrets webhookConfig)).

(** The discovery queries a journal records, in order. *)
Definition discoveryQueries (es : list InitEvent) : list MetaKey :=
  omap (λ e, match e with
             | ProvidersWithMetaAtKey k | ProviderMethodsWithMetaAtKey k => Some k
             | _ => None
             end) es.

(** The module is ready when [onModuleInit] has returned and a webhook
    service object holds both dispatch functions. *)
Definition ready (result : Completion unit * World) : Prop :=
  ∃ r f g,
    result.1 = Normal () ∧
    heap result.2 !! r =
    Some {| StripeWebhookService.handleWebhook := Some f;
            StripeWebhookService.handleConnectWebhook := Some g |}.

(** What a complete initialisation appends to the journal. *)
Definition readyJournal (discover : DiscoveryService) : list InitEvent :=
  [LoggerLog "Initializing Stripe Module for webhooks";
   ProvidersWithMetaAtKey STRIPE_WEBHOOK_SERVICE;
   ProviderMethodsWithMetaAtKey STRIPE_WEBHOOK_HANDLER]
  ++ registrationLog "Registering Stripe webhook handlers from "
       (providerMethodsWithMetaAtKey STRIPE_WEBHOOK_HANDLER)
  ++ [ProviderMethodsWithMetaAtKey STRIPE_CONNECT_WEBHOOK_HANDLER]
  ++ registrationLog "Registering Stripe Connect webhook handlers from "
       (providerMethodsWithMetaAtKey STRIPE_CONNECT_WEBHOOK_HANDLER).

(** The service object once both dispatch functions are written to it. *)
Definition wired (discover : DiscoveryService) : StripeWebhookService.t :=
  {| StripeWebhookService.handleWebhook :=
       Some (HandleWebhookFn
               (tableFrom (providerMethodsWithMetaAtKey STRIPE_WEBHOOK_HANDLER)));
     StripeWebhookService.handleConnectWebhook :=
       Some (ConnectHandleWebhookFn
               (tableFrom
                  (providerMethodsWithMetaAtKey STRIPE_CONNECT_WEBHOOK_HANDLER))) |}.

(** ** Routing through the wired service *)

Inductive Namespace := Primary | Connect.

(** The dispatch function the service object at [r] holds for a namespace. *)
Definition dispatchFnOf (w : World) (r : nat) (namespace : Namespace)
    : option DispatchFn :=
  service ← heap w !! r;
  match namespace with
  | Primary => StripeWebhookService.handleWebhook service
  | Connect => StripeWebhookService.handleConnectWebhook service
  end.

(** The DispatchTable of a namespace. *)
Definition dispatchTable (w : World) (r : nat) (namespace : Namespace)
    : option (list Binding) :=
  tableOf <$> dispatchFnOf w r namespace.

(** [routeEvent(event, namespace)]: the handlers one dispatch invokes. *)
Definition routed (config : StripeModuleConfig) (w : World) (r : nat)
    (namespace : Namespace) (webhookEvent : WebhookEvent) : option (list Handler) :=
  f ← dispatchFnOf w r namespace;
  Some (invoked (effects (applyDispatchFn config f webhookEvent))).

Definition boot : World := {| journal := []; heap := ∅ |}.

(** ** Discovery scenarios *)

Definition tagged (metaKey : MetaKey) (eventType : string)
    : MetaKey → option string :=
  λ k, if decide (k = metaKey) then Some eventType else None.

Definition webhookServiceProvider : Container.Provider :=
  {| Container.name := "StripeWebhookService";
     Container.instance := Some (StripeWebhookServiceObj 0);
     Container.classMetadata :=
       λ k, if decide (k = STRIPE_WEBHOOK_SERVICE) then Some true else None;
     Container.methods := [] |}.

(** A component with one method tagged for the primary namespace and one
    tagged for the connect namespace, with the same event type. *)
Definition billing (eventType : string)
    (onPrimary onConnect : WebhookEvent → Outcome) : Container.Provider :=
  {| Container.name := "BillingService";
     Container.instance := Some (ProviderObj 1);
     Container.classMetadata := λ _, None;
     Container.methods :=
       [ {| Container.methodName := "onCharge";
            Container.body := onPrimary;
            Container.metadata := tagged STRIPE_WEBHOOK_HANDLER eventType |};
         {| Container.methodName := "onConnectCharge";
            Container.body := onConnect;
            Container.metadata :=
              tagged STRIPE_CONNECT_WEBHOOK_HANDLER eventType |} ] |}.

Definition onlyAccountSecret (secret : string) : StripeModuleConfig :=
  {| apiKey := "sk_test";
     webhookConfig :=
       Some {| stripeSecrets := {| account := Some secret; connect := None |};
               loggingConfiguration := None |} |}.

Definition chargeSucceeded : WebhookEvent :=
  {| type := "charge.succeeded"; data := "{}" |}.

(** One method carrying both handler decorators. *)
Definition onEitherCharge : Container.Method :=
  {| Container.methodName := "onCharge";
     Container.body := λ _, Fulfilled;
     Container.metadata :=
       λ k, match k with
            | STRIPE_WEBHOOK_SERVICE => None
            | _ => Some "charge.succeeded"
            end |}.

Definition ledger : Container.Provider :=
  {| Container.name := "LedgerService";
     Container.instance := Some (ProviderObj 2);
     Container.classMetadata := λ _, None;
     Container.methods := [onEitherCharge] |}.

(** ** The discovery claims as worded in the specification *)

(** The binding the module makes of a method. *)
Definition bindingOf (p : Container.Provider) (m : Container.Method)
    (eventType : string) : Binding :=
  {| key := eventType;
     handler := create (Container.instance p) (Container.body m)
                       (Container.methodName m) "stripe_webhook" |}.

(** The bindings of all methods carrying one marker, provider by provider. *)
Definition bindingsAt (metaKey : MetaKey) (providers : list Container.Provider)
    : list Binding :=
  p ← providers;
  omap (λ m, bindingOf p m <$> Container.metadata m metaKey)
       (Container.methods p).

Definition appearsIn (p : Container.Provider) (m : Container.Method)
    (table : list Binding) : Prop :=
  ∃ b, b ∈ table ∧ handler b = handler (bindingOf p m "").

(** "A handler tagged for connect never appears in the primary
    DispatchTable and vice versa." *)
Definition namespaces_partitioned (config : StripeModuleConfig)
    (providers : list Container.Provider) (r : nat) : Prop :=
  let w := (onModuleInit (Container.scan providers) config boot).2 in
  ∀ p m primaryTable connectTable,
    p ∈ providers → m ∈ Container.methods p →
    dispatchTable w r Primary = Some primaryTable →
    dispatchTable w r Connect = Some connectTable →
    (is_Some (Container.metadata m STRIPE_CONNECT_WEBHOOK_HANDLER) →
       ¬ appearsIn p m primaryTable)
    ∧ (is_Some (Container.metadata m STRIPE_WEBHOOK_HANDLER) →
       ¬ appearsIn p m connectTable).

(** "Discovery must register only the primary one. Dispatching on
    namespace=primary invokes it once; dispatching the same type on
    namespace=connect is a no-op (connect table is empty)." *)
Definition only_primary_registered (config : StripeModuleConfig)
    (providers : list Container.Provider) (r : nat)
    (webhookEvent : WebhookEvent) (primaryHandler : Handler) : Prop :=
  let w := (onModuleInit (Container.scan providers) config boot).2 in
  routed config w r Primary webhookEvent = Some [primaryHandler]
  ∧ dispatchTable w r Connect = Some []
  ∧ routed config w r Connect webhookEvent = Some [].

(** ** Further vocabulary *)

(** The log lines of a call, in order. *)
Definition logged (es : list Effect) : list string :=
  omap (λ e, match e with Log message => Some message | _ => None end) es.

(** How the log line of each dispatch function starts. *)
Definition received (f : DispatchFn) : string :=
  match f with
  | HandleWebhookFn _ => "Received webhook event for "
  | ConnectHandleWebhookFn _ => "Received connect webhook event for "
  end.



(** The handlers of the discovered methods registered for an event type. *)
Definition handlersFor (metas : list Discovered.MethodWithMeta)
    (eventType : string) : list Handler :=
  map (λ x, handler (toBinding x))
      (filter (λ x, Discovered.meta x = eventType) metas).


(** A discovered handler method of class [name]. *)
Definition discoveredHandler (name methodName eventType : string)
    : Discovered.MethodWithMeta :=
  {| Discovered.discoveredMethod :=
       {| Discovered.handler := λ _, Fulfilled;
          Discovered.methodName := methodName;
          Discovered.parentClass :=
            {| Discovered.name := name;
               Discovered.instance := Some (ProviderObj 1) |} |};
     Discovered.meta := eventType |}.

(** A provider that carries the webhook-service marker without being a
    webhook service. *)
Definition impostor : Container.Provider :=
  {| Container.name := "NotTheWebhookService";
     Container.instance := Some (ProviderObj 7);
     Container.classMetadata :=
       λ k, if decide (k = STRIPE_WEBHOOK_SERVICE) then Some true else None;
     Container.methods := [] |}.

Definition bothSecrets : StripeModuleConfig :=
  {| apiKey := "sk_live";
     webhookConfig :=
       Some {| stripeSecrets := {| account := Some "whsec_a";
                                   connect := Some "whsec_c" |};
               loggingConfiguration :=
                 Some {| logMatchingEventHandlers := Some true |} |} |}.

(** ** The module's provider factories *)

(** The values of the properties of a JavaScript object. *)
Inductive JsValue :=
| JsUndefined
| JsBool (b : bool)
| JsString (s : string)
| JsNumber (n : Z)
| JsObject (ref : nat).

(** The [STRIPE_CLIENT_TOKEN] provider. Here the module configuration is
    the object with all its own properties, as the factory destructures
    it: [apiKey], [webhookConfig] and the options of the Stripe SDK. *)
Module StripeClientFactory.
(** [new Stripe(apiKey, config)] *)
Record Stripe := {
  apiKey : JsValue;
  config : gmap string JsValue
}.

(** A destructuring default [x = d]: [d] is taken when the property is
    absent or [undefined], and only then. *)
Definition orDefault (d : JsValue) (v : option JsValue) : JsValue :=
  match v with
  | None | Some JsUndefined => d
  | Some v => v
  end.

(** [({ apiKey, typescript = true, apiVersion = '2022-08-01',
        webhookConfig, ...options }) =>
      new Stripe(apiKey, { typescript, apiVersion, ...options })] *)
Definition useFactory (moduleConfig : gmap string JsValue) : Stripe :=
  let apiKey := default JsUndefined (moduleConfig !! "apiKey") in
  let typescript := orDefault (JsBool true) (moduleConfig !! "typescript") in
  let apiVersion :=
    orDefault (JsString "2022-08-01") (moduleConfig !! "apiVersion") in
  let options :=
    delete "webhookConfig"
      (delete "apiVersion" (delete "typescript" (delete "apiKey" moduleConfig))) in
  {| apiKey := apiKey;
     config := options ∪ <["apiVersion" := apiVersion]>
                           (<["typescript" := typescript]> ∅) |}.
End StripeClientFactory.

(** The [CONTROLLER_HACK] provider. The webhook controller class is the
    metadata defined on it; a class decorator is what it does to that
    metadata (the factory discards what the decorator returns). *)
Module ControllerHack.
(** [PATH_METADATA] of [@nestjs/common/constants]. *)
Definition PATH_METADATA : string := "path".

(** The two properties of [webhookConfig] this factory reads. *)
Record ControllerConfig := {
  controllerPrefix : option string;
  decorators : option (list (gmap string JsValue → gmap string JsValue))
}.

Definition useFactory (webhookConfig : option ControllerConfig)
    (StripeWebhookController : gmap string JsValue) : gmap string JsValue :=
  let controllerPrefix :=
    let configured := webhookConfig ≫= controllerPrefix in
    if truthy configured then default "" configured else "stripe" in
  let defined :=
    <[PATH_METADATA := JsString controllerPrefix]> StripeWebhookController in
  foldl (λ class deco, deco class) defined
        (default [] (webhookConfig ≫= decorators)).
End ControllerHack.

(** A module configuration that switches TypeScript support off, pins no
    API version and sets one SDK option. *)
Definition plainJsConfig : gmap string JsValue :=
  {[ "apiKey" := JsString "sk_test";
     "typescript" := JsBool false;
     "maxNetworkRetries" := JsNumber 2;
     "webhookConfig" := JsObject 1 ]}.

(** A decorator that defines guards on the class and leaves its path. *)
Definition useGuards (class : gmap string JsValue) : gmap string JsValue :=
  <["__guards__" := JsObject 3]> class.
(** * Properties *)

(** ** Payload service *)

Lemma orEmptyString_None : orEmptyString None = "".
Proof. reflexivity. Qed.

Lemma orEmptyString_Some s : orEmptyString (Some s) = s.
Proof. by destruct s. Qed.

(** C10: for every [webhookType], [tryHydratePayload] calls the verifier
    with the payload, the signature and one secret: the account secret field
    when [webhookType] is ["account"], the connect secret field for every
    other [webhookType]; so the verifier gets the account secret if and only
    if [webhookType] is ["account"] (or the two secrets are the same string).
    The constructor stores in each field the configured
    secret, and the empty string for a secret that is absent (or when there
    is no webhook configuration at all), so verifying for an unconfigured
    namespace calls the verifier with the empty string instead of failing
    first. *)
Theorem tryHydratePayload_secret :
  ∀ (Payload Event : Type) (constructEvent : Payload → string → string → Event)
    (config : StripeModuleConfig) (signature : string) (payload : Payload)
    (webhookType : string),
    let this := StripePayloadService.new config in
    let secrets := wc ← webhookConfig config; Some (stripeSecrets wc) in
    StripePayloadService.tryHydratePayload
      constructEvent this signature payload webhookType
    = constructEvent payload signature
        (if decide (webhookType = "account")
         then StripePayloadService.stripeWebhookSecret this
         else StripePayloadService.stripeConnectWebhookSecret this)
    ∧ (StripePayloadService.tryHydratePayload
         (λ _ _ secret, secret) this signature payload webhookType
       = StripePayloadService.stripeWebhookSecret this
       ↔ webhookType = "account"
         ∨ StripePayloadService.stripeWebhookSecret this
           = StripePayloadService.stripeConnectWebhookSecret this)
    ∧ StripePayloadService.stripeWebhookSecret this
      = default "" (secrets ≫= account)
    ∧ StripePayloadService.stripeConnectWebhookSecret this
      = default "" (secrets ≫= connect).
Proof.
  intros Payload Event constructEvent config signature payload webhookType.
  simpl. split; [reflexivity|]. split.
  { unfold StripePayloadService.tryHydratePayload.
    destruct (decide (webhookType = "account")) as [Heq|Hne].
    - split; [by left | done].
    - split; [by right | by intros [?|?]]. }
  destruct (webhookConfig config) as [wc|]; simpl; [|done].
  split.
  - destruct (account (stripeSecrets wc)); simpl;
      [apply orEmptyString_Some | done].
  - destruct (connect (stripeSecrets wc)); simpl;
      [apply orEmptyString_Some | done].
Qed.

(** Only the primary secret is configured: a connect delivery is verified
    against the empty string. *)
Example tryHydratePayload_unconfigured_connect :
  let config :=
    {| apiKey := "sk_test";
       webhookConfig :=
         Some {| stripeSecrets := {| account := Some "whsec_a"; connect := None |};
                 loggingConfiguration := None |} |} in
  let this := StripePayloadService.new config in
  StripePayloadService.tryHydratePayload
    (λ payload signature secret, (payload, signature, secret))
    this "t=1,v1=00" "{}" "connect" = ("{}", "t=1,v1=00", "")
  ∧ StripePayloadService.tryHydratePayload
    (λ payload signature secret, (payload, signature, secret))
    this "t=1,v1=00" "{}" "account" = ("{}", "t=1,v1=00", "whsec_a").
Proof. split; reflexivity. Qed.

(** ** The event loop on a call that awaits its handlers *)

Lemma run_snoc schedule i c : run (schedule ++ [i]) c = settle (run schedule c) i.
Proof. unfold run. by rewrite foldl_app. Qed.

Lemma settle_effects c i : effects (settle c i) = effects c.
Proof.
  unfold settle. destruct (invocations c !! i) as [inv|]; [|done].
  by destruct (promise inv).
Qed.

Lemma run_effects schedule c : effects (run schedule c) = effects c.
Proof.
  induction schedule as [|i schedule IH] using rev_ind; [done|].
  by rewrite run_snoc, settle_effects.
Qed.

Lemma allFinished_spec n schedule :
  allFinished n schedule = true ↔ ∀ i, i < n → i ∈ schedule.
Proof.
  unfold allFinished. rewrite forallb_forall. split.
  - intros H i Hi. eapply bool_decide_eq_true_1, H, in_seq. lia.
  - intros H i Hi. apply bool_decide_eq_true_2, H. apply in_seq in Hi. lia.
Qed.

Lemma allFinished_ext n s s' :
  (∀ i, i < n → i ∈ s ↔ i ∈ s') → allFinished n s = allFinished n s'.
Proof.
  intros H. apply eq_true_iff_eq. rewrite !allFinished_spec.
  split; intros Hall i Hi; apply (H i Hi), Hall, Hi.
Qed.

Lemma firstRejection_snoc handlers ev schedule i :
  firstRejection handlers ev (schedule ++ [i]) =
  match firstRejection handlers ev schedule with
  | Some r => Some r
  | None => rejection handlers ev i
  end.
Proof.
  unfold firstRejection. rewrite omap_app. simpl.
  destruct (omap (rejection handlers ev) schedule); simpl; [|done].
  by destruct (rejection handlers ev i).
Qed.

Lemma firstRejection_None handlers ev schedule :
  firstRejection handlers ev schedule = None ↔
  ∀ i, i ∈ schedule → rejection handlers ev i = None.
Proof.
  unfold firstRejection. induction schedule as [|j schedule IH]; simpl.
  - split; [|done]. intros _ i Hi. by apply elem_of_nil in Hi.
  - destruct (rejection handlers ev j) as [r|] eqn:Hj; simpl.
    + split; [done|]. intros H. specialize (H j). rewrite Hj in H.
      apply H. by left.
    + rewrite IH. split.
      * intros H i [->|Hi]%elem_of_cons; auto.
      * intros H i Hi. apply H. by right.
Qed.

Lemma invocationOf_ext ev s s' i b :
  (i ∈ s ↔ i ∈ s') → invocationOf ev s i b = invocationOf ev s' i b.
Proof.
  intros H. unfold invocationOf. f_equal.
  by rewrite (bool_decide_ext _ _ H).
Qed.

Lemma rejection_None handlers ev i b :
  handlers !! i = Some b →
  rejection handlers ev i = None ↔ outcomeOf ev b = Fulfilled.
Proof.
  intros Hb. unfold rejection. rewrite Hb. simpl.
  destruct (outcomeOf ev b); split; congruence.
Qed.

Lemma forallb_fulfilled handlers ev schedule :
  forallb fulfilled (imap (invocationOf ev schedule) handlers) = true ↔
  ∀ i b, handlers !! i = Some b → i ∈ schedule ∧ outcomeOf ev b = Fulfilled.
Proof.
  rewrite forallb_forall. split.
  - intros H i b Hb.
    assert (Hin : In (invocationOf ev schedule i b)
                     (imap (invocationOf ev schedule) handlers)).
    { apply list_elem_of_In, list_elem_of_lookup. exists i.
      by rewrite list_lookup_imap, Hb. }
    apply H in Hin. unfold fulfilled, invocationOf in Hin. simpl in Hin.
    case_bool_decide; [|done]. split; [done|].
    by destruct (outcomeOf ev b).
  - intros H inv [i Hi]%list_elem_of_In%list_elem_of_lookup.
    rewrite list_lookup_imap in Hi.
    destruct (handlers !! i) as [b|] eqn:Hb; simpl in Hi; [|done].
    injection Hi as <-. destruct (H i b Hb) as [Hin Hout].
    unfold fulfilled, invocationOf. simpl.
    by rewrite bool_decide_true, Hout.
Qed.

Section Awaiting.
(** A call that has invoked [handlers] on [ev] and awaits them all. *)
Variables (handlers : list Binding) (ev : WebhookEvent) (c0 : Call).
Hypothesis c0_invocations :
  invocations c0 =
  map (λ x, {| callee := handler x; argument := ev; promise := Pending |})
      handlers.
Hypothesis c0_returned : returned c0 = Pending.
Hypothesis some_handler : handlers ≠ [].

(** Each promise settles, with its handler's own outcome, when the loop
    gets to it, whatever the other handlers did. *)
Lemma run_invocations schedule :
  invocations (run schedule c0) = imap (invocationOf ev schedule) handlers.
Proof.
  induction schedule as [|j schedule IH] using rev_ind.
  - simpl. rewrite c0_invocations. apply list_eq. intros i.
    rewrite list_lookup_fmap, list_lookup_imap.
    destruct (handlers !! i) as [b|]; simpl; [|done].
    unfold invocationOf. by rewrite bool_decide_false by apply not_elem_of_nil.
  - rewrite run_snoc. unfold settle. rewrite IH, list_lookup_imap.
    destruct (handlers !! j) as [b|] eqn:Hb; simpl.
    + case_bool_decide as Hj; simpl.
      * rewrite IH. apply imap_ext. intros i x _.
        apply invocationOf_ext. rewrite elem_of_app, list_elem_of_singleton.
        split; [auto|]. by intros [?| ->].
      * apply list_eq. intros i. rewrite list_lookup_imap.
        destruct (decide (i = j)) as [->|Hne].
        -- rewrite list_lookup_insert_eq.
           2:{ rewrite length_imap. by eapply lookup_lt_Some. }
           rewrite Hb. simpl. unfold invocationOf.
           rewrite bool_decide_true; [done|].
           rewrite elem_of_app, list_elem_of_singleton. by right.
        -- rewrite list_lookup_insert_ne by done.
           rewrite list_lookup_imap.
           destruct (handlers !! i) as [b'|]; simpl; [|done].
           f_equal. apply invocationOf_ext.
           rewrite elem_of_app, list_elem_of_singleton.
           split; [auto|]. by intros [?| ?].
    + rewrite IH. apply imap_ext. intros i x Hx.
      apply invocationOf_ext. rewrite elem_of_app, list_elem_of_singleton.
      split; [auto|]. intros [?| ->]; [done|congruence].
Qed.

(** The promise the dispatch function returned: rejected as soon as one
    handler has rejected, with the first such reason; fulfilled once all
    have finished and none rejected; pending otherwise. *)
Lemma run_returned schedule :
  returned (run schedule c0) =
  match firstRejection handlers ev schedule with
  | Some r => Settled (Rejected r)
  | None =>
      if allFinished (length handlers) schedule
      then Settled Fulfilled else Pending
  end.
Proof.
  induction schedule as [|j schedule IH] using rev_ind.
  - simpl. rewrite c0_returned.
    destruct (allFinished (length handlers) []) eqn:Hall; [|done].
    rewrite allFinished_spec in Hall.
    destruct handlers as [|b rest]; [done|].
    specialize (Hall 0). simpl in Hall.
    exfalso. eapply not_elem_of_nil, Hall. lia.
  - pose proof (run_invocations (schedule ++ [j])) as Hnext.
    rewrite run_snoc in *. rewrite firstRejection_snoc.
    unfold settle in *.
    rewrite run_invocations, list_lookup_imap in *.
    destruct (handlers !! j) as [b|] eqn:Hb; simpl in *.
    + case_bool_decide as Hj; simpl in *.
      * (* already settled *)
        rewrite IH.
        destruct (firstRejection handlers ev schedule) eqn:Hfirst; [done|].
        rewrite firstRejection_None in Hfirst. rewrite (Hfirst j Hj).
        rewrite (allFinished_ext _ (schedule ++ [j]) schedule); [done|].
        intros i _. rewrite elem_of_app, list_elem_of_singleton.
        split; [|auto]. by intros [?| ->].
      * (* the handler finishes now *)
        unfold rejection. rewrite Hb. simpl.
        fold (outcomeOf ev b). rewrite IH.
        destruct (firstRejection handlers ev schedule) eqn:Hfirst; [done|].
        destruct (allFinished (length handlers) schedule) eqn:Hall.
        { rewrite allFinished_spec in Hall. exfalso.
          apply Hj, Hall. by eapply lookup_lt_Some. }
        destruct (outcomeOf ev b) eqn:Hout; [|done].
        change (callback (handler b) ev) with (outcomeOf ev b) in Hnext.
        rewrite Hout in Hnext. rewrite Hnext.
        replace (allFinished (length handlers) (schedule ++ [j]))
          with (forallb fulfilled
                  (imap (invocationOf ev (schedule ++ [j])) handlers)); [done|].
        apply eq_true_iff_eq.
        rewrite forallb_fulfilled, allFinished_spec.
        rewrite firstRejection_None in Hfirst. split.
        -- intros H i Hi. destruct (lookup_lt_is_Some_2 handlers i Hi) as [b' Hb'].
           by apply (H i b').
        -- intros H i b' Hb'. split; [by eapply H, lookup_lt_Some|].
           destruct (decide (i = j)) as [->|Hne]; [congruence|].
           apply (rejection_None handlers ev i b' Hb'), Hfirst.
           specialize (H i (lookup_lt_Some _ _ _ Hb')).
           rewrite elem_of_app, list_elem_of_singleton in H.
           by destruct H.
    + (* not one of the handlers *)
      rewrite IH. unfold rejection. rewrite Hb. simpl.
      destruct (firstRejection handlers ev schedule); [done|].
      rewrite (allFinished_ext _ (schedule ++ [j]) schedule); [done|].
      intros i Hi. rewrite elem_of_app, list_elem_of_singleton.
      apply lookup_ge_None in Hb. split; [|auto].
      intros [?| ->]; [done|lia].
Qed.
End Awaiting.

(** ** The dispatch functions *)

Lemma invoked_app es es' : invoked (es ++ es') = invoked es ++ invoked es'.
Proof. apply omap_app. Qed.

Lemma invoked_Invoke ev handlers :
  invoked (map (λ x, Invoke (handler x) ev) handlers) = map handler handlers.
Proof. induction handlers as [|b handlers IH]; simpl; [done|]. by f_equal. Qed.

(** With at least one matching handler, both dispatch functions do the
    same: an optional log line, one call per matching handler, one await. *)
Lemma dispatch_matching config f ev :
  let handlers := matching (type ev) (tableOf f) in
  handlers ≠ [] →
  ∃ logged,
    Forall (λ e, ∃ message, e = Log message) logged ∧
    applyDispatchFn config f ev =
    {| effects := logged ++ map (λ x, Invoke (handler x) ev) handlers
                         ++ [AwaitAll (length handlers)];
       invocations :=
         map (λ x, {| callee := handler x; argument := ev; promise := Pending |})
             handlers;
       returned := Pending |}.
Proof.
  intros handlers Hne.
  assert (Hlen : length handlers ≠ 0) by by destruct handlers.
  destruct f as [table|table]; simpl in *;
    unfold handleWebhook, ConnectHandleWebhook;
    fold (matching (type ev) table); fold handlers;
    (destruct (decide (length handlers = 0)); [done|]);
    simpl; rewrite length_map;
    (destruct (logMatching config); eexists; split; [|reflexivity| |reflexivity]);
    repeat constructor; by eexists.
Qed.

Lemma invoked_logged logged :
  Forall (λ e, ∃ message, e = Log message) logged → invoked logged = [].
Proof. induction 1 as [|e logged [m ->] _ IH]; [done|]. apply IH. Qed.

Lemma dispatch_unmatched config f ev :
  matching (type ev) (tableOf f) = [] →
  applyDispatchFn config f ev =
  {| effects := []; invocations := []; returned := Settled Fulfilled |}.
Proof.
  intros Hnil.
  destruct f as [table|table]; simpl in *;
    unfold handleWebhook, ConnectHandleWebhook;
    fold (matching (type ev) table); by rewrite Hnil.
Qed.

Lemma matching_nil eventType table :
  matching eventType table = [] ↔ ∀ b, b ∈ table → key b ≠ eventType.
Proof.
  unfold matching. split.
  - intros Hnil b Hb Hkey.
    by apply (filter_nil_not_elem_of (λ x, key x = eventType) table b).
  - intros Hnone. destruct (filter _ table) as [|b rest] eqn:Hf; [done|].
    assert (Hb : b ∈ filter (λ x, key x = eventType) table)
      by (rewrite Hf; left).
    apply list_elem_of_filter in Hb as [Hkey Hb]. by destruct (Hnone b Hb).
Qed.

(** C7: when no handler of the namespace's table is registered for the
    event's type (the table may be empty), the dispatch call, be it
    [handleWebhook] or [ConnectHandleWebhook], is a no-op: it invokes no
    handler, logs nothing, awaits nothing, and the promise it returns is
    fulfilled at once, not rejected, and stays so whatever the event loop
    does afterwards. *)
Theorem dispatch_no_handler :
  ∀ (config : StripeModuleConfig) (f : DispatchFn) (webhookEvent : WebhookEvent),
    (∀ b, b ∈ tableOf f → key b ≠ type webhookEvent) →
    applyDispatchFn config f webhookEvent =
      {| effects := []; invocations := []; returned := Settled Fulfilled |}
    ∧ invoked (effects (applyDispatchFn config f webhookEvent)) = []
    ∧ ∀ schedule,
        run schedule (applyDispatchFn config f webhookEvent) =
        applyDispatchFn config f webhookEvent.
Proof.
  intros config f ev Hnone.
  apply matching_nil in Hnone. rewrite (dispatch_unmatched _ _ _ Hnone).
  repeat split. intros schedule.
  induction schedule as [|i schedule IH] using rev_ind; [done|].
  by rewrite run_snoc, IH.
Qed.

Lemma dispatch_no_handler_witness :
  applyDispatchFn primaryOnly (HandleWebhookFn invoicePaidTable)
    {| type := "charge.succeeded"; data := "{}" |} =
    {| effects := []; invocations := []; returned := Settled Fulfilled |}
  ∧ applyDispatchFn primaryOnly (ConnectHandleWebhookFn [])
      invoicePaid =
    {| effects := []; invocations := []; returned := Settled Fulfilled |}.
Proof.
  split.
  - apply (dispatch_no_handler primaryOnly (HandleWebhookFn invoicePaidTable)
             {| type := "charge.succeeded"; data := "{}" |}).
    intros b Hb. simpl in Hb. unfold invoicePaidTable in Hb.
    repeat (apply elem_of_cons in Hb as [->|Hb]; [simpl; discriminate|]).
    by apply elem_of_nil in Hb.
  - apply (dispatch_no_handler primaryOnly (ConnectHandleWebhookFn []) invoicePaid).
    intros b Hb. by apply elem_of_nil in Hb.
Defined.

Lemma dispatch_invoked config f ev :
  let handlers := matching (type ev) (tableOf f) in
  handlers ≠ [] →
  invoked (effects (applyDispatchFn config f ev)) = map handler handlers.
Proof.
  intros handlers Hne.
  destruct (dispatch_matching config f ev Hne) as (logged & Hlogged & ->).
  simpl. rewrite !invoked_app, invoked_logged, invoked_Invoke by done.
  simpl. apply app_nil_r.
Qed.

(** C6: when N >= 1 handlers of the namespace's table match the event's
    type, one dispatch call invokes each of the N handlers exactly once:
    its calls are, in table order, exactly the N matching handlers, each
    on the event, and nothing else. All N calls are made before the single
    await, which is the last thing the call does, so at that point every
    handler has been started and none has been waited for (all N promises
    are still pending); no handler is called again while they settle. *)
Theorem dispatch_fan_out :
  ∀ (config : StripeModuleConfig) (f : DispatchFn) (webhookEvent : WebhookEvent),
    let handlers := matching (type webhookEvent) (tableOf f) in
    let c := applyDispatchFn config f webhookEvent in
    (1 ≤ length handlers)%nat →
    invoked (effects c) = map handler handlers
    ∧ length (invoked (effects c)) = length handlers
    ∧ (∃ before,
         effects c = before ++ [AwaitAll (length handlers)]
         ∧ invoked before = map handler handlers
         ∧ ∀ e, e ∈ before → ∀ n, e ≠ AwaitAll n)
    ∧ (∀ h ev, Invoke h ev ∈ effects c → ev = webhookEvent)
    ∧ invocations c =
        map (λ x, {| callee := handler x; argument := webhookEvent;
                     promise := Pending |}) handlers
    ∧ ∀ schedule, effects (run schedule c) = effects c.
Proof.
  intros config f ev handlers c Hlen.
  assert (Hne : handlers ≠ []) by (destruct handlers; [simpl in Hlen; lia|done]).
  destruct (dispatch_matching config f ev Hne) as (logged & Hlogged & Hc).
  fold handlers in Hc. fold c in Hc. rewrite Hc. simpl.
  assert (Hcalls : invoked (logged ++ map (λ x, Invoke (handler x) ev) handlers)
                   = map handler handlers).
  { by rewrite invoked_app, invoked_logged, invoked_Invoke. }
  repeat split.
  - rewrite app_assoc, invoked_app, Hcalls. simpl. apply app_nil_r.
  - rewrite app_assoc, invoked_app, Hcalls. simpl.
    by rewrite app_nil_r, length_map.
  - exists (logged ++ map (λ x, Invoke (handler x) ev) handlers).
    split; [by rewrite app_assoc|]. split; [done|].
    intros e [He|He]%elem_of_app n ->.
    + rewrite Forall_forall in Hlogged. by destruct (Hlogged _ He).
    + apply list_elem_of_fmap in He as (b & ? & _). done.
  - intros h ev' [He|[He|He]%elem_of_app]%elem_of_app.
    + rewrite Forall_forall in Hlogged. by destruct (Hlogged _ He).
    + apply list_elem_of_fmap in He as (b & [= _ ->] & _). done.
    + by apply list_elem_of_singleton in He.
  - intros schedule. by rewrite run_effects.
Qed.

Lemma dispatch_fan_out_witness :
  (1 ≤ length (matching (type invoicePaid)
                 (tableOf (HandleWebhookFn invoicePaidTable))))%nat
  ∧ invoked (effects (applyDispatchFn primaryOnly
                        (HandleWebhookFn invoicePaidTable) invoicePaid))
    = map handler invoicePaidTable.
Proof.
  split; [simpl; lia|].
  apply (dispatch_fan_out primaryOnly (HandleWebhookFn invoicePaidTable)
           invoicePaid).
  simpl; lia.
Defined.

(** What the event loop makes of a dispatch call with matching handlers. *)
Lemma dispatch_run config f ev schedule :
  let handlers := matching (type ev) (tableOf f) in
  let c := run schedule (applyDispatchFn config f ev) in
  handlers ≠ [] →
  invocations c = imap (invocationOf ev schedule) handlers
  ∧ returned c =
      match firstRejection handlers ev schedule with
      | Some r => Settled (Rejected r)
      | None =>
          if allFinished (length handlers) schedule
          then Settled Fulfilled else Pending
      end.
Proof.
  intros handlers c Hne. subst c.
  destruct (dispatch_matching config f ev Hne) as (logged & _ & ->).
  split; [by apply run_invocations | by apply run_returned].
Qed.

Lemma all_fulfilled_iff handlers ev schedule :
  firstRejection handlers ev schedule = None
  ∧ allFinished (length handlers) schedule = true
  ↔ ∀ i b, handlers !! i = Some b → i ∈ schedule ∧ outcomeOf ev b = Fulfilled.
Proof.
  rewrite firstRejection_None, allFinished_spec. split.
  - intros [Hnone Hall] i b Hb.
    assert (Hi : i ∈ schedule) by (eapply Hall, lookup_lt_Some, Hb).
    split; [done|]. by apply (rejection_None handlers ev i b Hb), Hnone.
  - intros H. split.
    + intros i Hi. destruct (handlers !! i) as [b|] eqn:Hb.
      * apply (rejection_None handlers ev i b Hb). by apply (H i b).
      * unfold rejection. by rewrite Hb.
    + intros i Hi. destruct (lookup_lt_is_Some_2 handlers i Hi) as [b Hb].
      by apply (H i b).
Qed.

Lemma rejecting_listed handlers ev schedule i b r :
  handlers !! i = Some b → outcomeOf ev b = Rejected r → i ∈ schedule →
  ∃ r', firstRejection handlers ev schedule = Some r'.
Proof.
  intros Hb Hr Hi.
  destruct (firstRejection handlers ev schedule) as [r'|] eqn:Hfirst; [eauto|].
  rewrite firstRejection_None in Hfirst. specialize (Hfirst i Hi).
  apply (rejection_None handlers ev i b Hb) in Hfirst. congruence.
Qed.

(** C1, as the code has it: when one of the N >= 1 matching handlers
    rejects, all N handlers have still been invoked, and each of them
    still runs to completion, its promise settling with its own outcome
    when the event loop gets to it; but the dispatch call does not resolve.
    The promise [handleWebhook] / [ConnectHandleWebhook] returned is never
    fulfilled, and once the rejecting handler has finished it is rejected,
    with the reason of the first handler that rejected. *)
Theorem dispatch_rejects_with_handler :
  ∀ (config : StripeModuleConfig) (f : DispatchFn) (webhookEvent : WebhookEvent)
    (schedule : list nat) (i : nat) (b : Binding) (r : string),
    let handlers := matching (type webhookEvent) (tableOf f) in
    let c := run schedule (applyDispatchFn config f webhookEvent) in
    handlers !! i = Some b →
    outcomeOf webhookEvent b = Rejected r →
    invoked (effects c) = map handler handlers
    ∧ (∀ j b', handlers !! j = Some b' →
         invocations c !! j =
         Some {| callee := handler b'; argument := webhookEvent;
                 promise := if bool_decide (j ∈ schedule)
                            then Settled (outcomeOf webhookEvent b')
                            else Pending |})
    ∧ returned c ≠ Settled Fulfilled
    ∧ (i ∈ schedule →
       ∃ r', firstRejection handlers webhookEvent schedule = Some r'
             ∧ returned c = Settled (Rejected r')).
Proof.
  intros config f ev schedule i b r handlers c Hb Hr.
  assert (Hne : handlers ≠ []) by (intros Hnil; by rewrite Hnil in Hb).
  destruct (dispatch_run config f ev schedule Hne) as [Hinv Hret].
  fold handlers in Hinv, Hret. fold c in Hinv, Hret.
  split; [|split; [|split]].
  - unfold c. rewrite run_effects. by apply dispatch_invoked.
  - intros j b' Hb'. by rewrite Hinv, list_lookup_imap, Hb'.
  - rewrite Hret. intros Hful.
    destruct (firstRejection handlers ev schedule) eqn:Hfirst; [done|].
    destruct (allFinished (length handlers) schedule) eqn:Hall; [|done].
    destruct (proj1 (all_fulfilled_iff handlers ev schedule)
                (conj Hfirst Hall) i b Hb) as [_ Hout].
    congruence.
  - intros Hi.
    destruct (rejecting_listed handlers ev schedule i b r Hb Hr Hi) as [r' Hr'].
    exists r'. by rewrite Hret, Hr'.
Qed.

Lemma dispatch_rejects_with_handler_witness :
  matching (type invoicePaid) (tableOf (HandleWebhookFn invoicePaidTable)) !! 0
    = head invoicePaidTable
  ∧ returned (run [1; 0] (applyDispatchFn primaryOnly
                            (HandleWebhookFn invoicePaidTable) invoicePaid))
    ≠ Settled Fulfilled.
Proof.
  split; [reflexivity|].
  apply (dispatch_rejects_with_handler primaryOnly
           (HandleWebhookFn invoicePaidTable) invoicePaid [1; 0] 0
           {| key := "invoice.paid";
              handler := create (Some (ProviderObj 1)) (λ _, Rejected "boom")
                                "onInvoicePaid" "stripe_webhook" |}
           "boom");
    reflexivity.
Defined.

(** C1 fails as worded: the first of two [invoice.paid] handlers throws;
    both handlers run to completion, and the promise [handleWebhook]
    returned is rejected with the handler's reason. *)
Lemma rejection_not_contained :
  ¬ rejection_contained primaryOnly (HandleWebhookFn invoicePaidTable) invoicePaid.
Proof.
  intros H.
  destruct (H (ex_intro _ _ (ex_intro _ "boom"
                 (conj (list_elem_of_here _ _) eq_refl))) [0; 1]) as [_ Hreturned].
  by apply (Hreturned "boom").
Qed.

(** Two handlers that both succeed: the call is pending until the last
    one has finished, and fulfilled then, in either order. *)
Example join_on_success :
  let c := applyDispatchFn primaryOnly (HandleWebhookFn invoicePaidBothFine)
             invoicePaid in
  returned c = Pending
  ∧ returned (run [1] c) = Pending
  ∧ returned (run [1; 0] c) = Settled Fulfilled
  ∧ returned (run [0; 1] c) = Settled Fulfilled.
Proof. repeat split. Qed.

(** A throwing handler on the connect side: the connect dispatch function
    rejects in the same way. *)
Example connect_dispatch_rejects :
  returned (run [0; 1] (applyDispatchFn primaryOnly
                          (ConnectHandleWebhookFn invoicePaidTable) invoicePaid))
  = Settled (Rejected "boom").
Proof. reflexivity. Qed.

(** C2, as the code has it: with N >= 1 matching handlers, the promise the
    dispatch call returned is fulfilled exactly when all N handlers have
    finished and every one of them was fulfilled, so a fulfilled call has
    waited for all N; it is rejected exactly when some handler that has
    finished rejected, with the reason of the first one to do so, however
    many of the others are still pending. *)
Theorem dispatch_join_or_first_rejection :
  ∀ (config : StripeModuleConfig) (f : DispatchFn) (webhookEvent : WebhookEvent)
    (schedule : list nat),
    let handlers := matching (type webhookEvent) (tableOf f) in
    let c := run schedule (applyDispatchFn config f webhookEvent) in
    (1 ≤ length handlers)%nat →
    (returned c = Settled Fulfilled ↔
       ∀ i b, handlers !! i = Some b →
              i ∈ schedule ∧ outcomeOf webhookEvent b = Fulfilled)
    ∧ (returned c = Settled Fulfilled →
       length (invocations c) = length handlers
       ∧ Forall (λ inv, promise inv = Settled Fulfilled) (invocations c))
    ∧ (∀ r, returned c = Settled (Rejected r) ↔
            firstRejection handlers webhookEvent schedule = Some r)
    ∧ (∀ r, returned c = Settled (Rejected r) →
            ∃ i b, i ∈ schedule ∧ handlers !! i = Some b
                   ∧ outcomeOf webhookEvent b = Rejected r).
Proof.
  intros config f ev schedule handlers c Hlen.
  assert (Hne : handlers ≠ []) by (destruct handlers; [simpl in Hlen; lia|done]).
  destruct (dispatch_run config f ev schedule Hne) as [Hinv Hret].
  fold handlers in Hinv, Hret. fold c in Hinv, Hret.
  assert (Hful : returned c = Settled Fulfilled ↔
                 ∀ i b, handlers !! i = Some b →
                        i ∈ schedule ∧ outcomeOf ev b = Fulfilled).
  { rewrite <- all_fulfilled_iff, Hret.
    destruct (firstRejection handlers ev schedule);
      destruct (allFinished (length handlers) schedule);
      split; (done || by intros [? ?]). }
  assert (Hrej : ∀ r, returned c = Settled (Rejected r) ↔
                      firstRejection handlers ev schedule = Some r).
  { intros r. rewrite Hret.
    destruct (firstRejection handlers ev schedule);
      [|destruct (allFinished (length handlers) schedule)];
      split; congruence. }
  split; [done|]. split; [|split; [done|]].
  - intros Hc. rewrite Hinv, length_imap. split; [done|].
    apply Forall_forall. intros inv [i Hi]%list_elem_of_lookup.
    rewrite list_lookup_imap in Hi.
    destruct (handlers !! i) as [b|] eqn:Hb; simpl in Hi; [|done].
    injection Hi as <-. destruct (proj1 Hful Hc i b Hb) as [Hin Hout].
    simpl. by rewrite bool_decide_true, Hout.
  - intros r Hr%Hrej. unfold firstRejection in Hr.
    destruct (omap (rejection handlers ev) schedule) as [|r' rs] eqn:Hom;
      [done|]. injection Hr as ->.
    assert (Hin : r ∈ omap (rejection handlers ev) schedule)
      by (rewrite Hom; left).
    apply list_elem_of_omap in Hin as (i & Hi & Hri).
    unfold rejection in Hri.
    destruct (handlers !! i) as [b|] eqn:Hb; simpl in Hri; [|done].
    exists i, b. split; [done|]. split; [done|].
    destruct (outcomeOf ev b); congruence.
Qed.

Lemma dispatch_join_or_first_rejection_witness :
  (1 ≤ length (matching (type invoicePaid)
                 (tableOf (HandleWebhookFn invoicePaidTable))))%nat
  ∧ (returned (run [0] (applyDispatchFn primaryOnly
                          (HandleWebhookFn invoicePaidTable) invoicePaid))
     = Settled (Rejected "boom") ↔
     firstRejection
       (matching (type invoicePaid) (tableOf (HandleWebhookFn invoicePaidTable)))
       invoicePaid [0] = Some "boom").
Proof.
  assert (Hlen : (1 ≤ length (matching (type invoicePaid)
                    (tableOf (HandleWebhookFn invoicePaidTable))))%nat)
    by (simpl; lia).
  split; [exact Hlen|].
  exact (proj1 (proj2 (proj2
           (dispatch_join_or_first_rejection primaryOnly
              (HandleWebhookFn invoicePaidTable) invoicePaid [0] Hlen)))
           "boom").
Defined.

(** C2 fails as worded: the first handler rejects while the second is
    still running, and the dispatch call is settled (rejected) at once,
    with only one of its two handlers settled. *)
Lemma no_join_all_barrier :
  ¬ join_all_barrier primaryOnly (HandleWebhookFn invoicePaidTable) invoicePaid.
Proof.
  intros H. specialize (H [0]). simpl in H.
  assert (Hall : Forall (λ inv, settled inv = true)
                   (invocations
                      (run [0] (applyDispatchFn primaryOnly
                                  (HandleWebhookFn invoicePaidTable) invoicePaid))))
    by (apply H; discriminate).
  vm_compute in Hall. apply Forall_cons in Hall as [_ Hall].
  apply Forall_cons in Hall as [Hpending _]. discriminate.
Qed.

(** ** lodash *)

Section LodashFacts.
Context {A : Type}.
Implicit Types (grouped : list (string * list A)) (k : string) (x : A).

Lemma keys_pushTo k x grouped :
  keys (pushTo k x grouped) =
  if decide (k ∈ keys grouped) then keys grouped else keys grouped ++ [k].
Proof.
  induction grouped as [|[k' xs] rest IH]; simpl; [done|].
  destruct (decide (k = k')) as [->|Hne]; simpl.
  - rewrite decide_True; [done|]. left.
  - rewrite IH. unfold keys. destruct (decide (k ∈ map fst rest)).
    + rewrite decide_True; [done|]. by right.
    + rewrite decide_False; [done|].
      by intros [?|?]%elem_of_cons.
Qed.

Lemma NoDup_keys_pushTo k x grouped :
  NoDup (keys grouped) → NoDup (keys (pushTo k x grouped)).
Proof.
  intros Hnd. rewrite keys_pushTo. case_decide; [done|].
  apply NoDup_app. repeat split; [done| |apply NoDup_singleton].
  intros y Hy ->%list_elem_of_singleton. done.
Qed.

Lemma groups_pushTo k x grouped :
  concat (map snd (pushTo k x grouped)) ≡ₚ concat (map snd grouped) ++ [x].
Proof.
  induction grouped as [|[k' xs] rest IH]; simpl; [done|].
  destruct (decide (k = k')); simpl.
  - by rewrite <- !app_assoc, (Permutation_app_comm [x]).
  - by rewrite IH, app_assoc.
Qed.

Lemma groupBy_invariant (iteratee : A → string) collection grouped :
  NoDup (keys grouped) →
  let result := foldl (λ g x, pushTo (iteratee x) x g) grouped collection in
  NoDup (keys result)
  ∧ concat (map snd result) ≡ₚ concat (map snd grouped) ++ collection.
Proof.
  revert grouped. induction collection as [|x rest IH]; intros grouped Hnd.
  - simpl. by rewrite app_nil_r.
  - simpl. destruct (IH (pushTo (iteratee x) x grouped)) as [Hnd' Hperm].
    { by apply NoDup_keys_pushTo. }
    split; [done|]. rewrite Hperm, groups_pushTo.
    by rewrite <- app_assoc.
Qed.

Lemma get_keys grouped :
  NoDup (keys grouped) → map (get grouped) (keys grouped) = map snd grouped.
Proof.
  induction grouped as [|[k xs] rest IH]; simpl; [done|].
  intros [Hk Hnd]%NoDup_cons. rewrite decide_True by done. f_equal.
  rewrite <- (IH Hnd). apply map_ext_in. intros k' Hk'%list_elem_of_In.
  rewrite decide_False; [done|]. by intros ->.
Qed.

(** Grouping and flattening again rearranges the collection, and
    neither drops nor duplicates an element. *)
Lemma flatten_groupBy (iteratee : A → string) collection :
  let grouped := groupBy iteratee collection in
  flatten (map (get grouped) (keys grouped)) ≡ₚ collection.
Proof.
  intros grouped.
  destruct (groupBy_invariant iteratee collection []) as [Hnd Hperm];
    [apply NoDup_nil_2|].
  fold (groupBy iteratee collection) in Hnd, Hperm. fold grouped in Hnd, Hperm.
  unfold flatten. by rewrite get_keys.
Qed.
End LodashFacts.

Lemma tableFrom_Permutation metas : tableFrom metas ≡ₚ map toBinding metas.
Proof.
  unfold tableFrom.
  set (grouped := groupBy _ metas).
  transitivity (map toBinding (flatten (map (get grouped) (keys grouped)))).
  - unfold flatten. rewrite <- (map_map (get grouped) (map toBinding)).
    generalize (map (get grouped) (keys grouped)). intros ls.
    induction ls as [|l ls IH]; simpl; [done|].
    by rewrite map_app, IH.
  - apply Permutation_map, flatten_groupBy.
Qed.

(** ** Initialisation *)

Lemma bind_run {A B} (m : Init A) (k : A → Init B) w :
  (m ≫= k) w =
  match m w with
  | (Normal a, w') => k a w'
  | (Throw message, w') => (Throw message, w')
  end.
Proof. reflexivity. Qed.

Lemma record_run e w :
  record e w = (Normal (), {| journal := journal w ++ [e]; heap := heap w |}).
Proof. reflexivity. Qed.

Lemma mapM_logging {B} (line : string → string) (g : string → B) ks w :
  mapM (λ x, loggerLog (line x);; mret (g x)) ks w =
  (Normal (map g ks),
   {| journal := journal w ++ map (λ x, LoggerLog (line x)) ks;
      heap := heap w |}).
Proof.
  revert w. induction ks as [|k ks IH]; intros w.
  - destruct w. simpl. by rewrite app_nil_r.
  - change (mapM ?f (k :: ks)) with (y ← f k; l ← mapM f ks; mret (y :: l)).
    rewrite !bind_run. unfold loggerLog at 1. rewrite record_run.
    simpl. rewrite bind_run, IH. simpl.
    by rewrite <- app_assoc.
Qed.

Lemma register_run registering grouped w :
  register registering grouped w =
  (Normal (flatten (map (λ x, map toBinding (get grouped x)) (keys grouped))),
   {| journal := journal w
                 ++ map (λ x, LoggerLog (registering +:+ x)) (keys grouped);
      heap := heap w |}).
Proof.
  unfold register, fmap, Init_fmap. rewrite bind_run.
  by rewrite (mapM_logging (λ x, registering +:+ x)
                (λ x, map toBinding (get grouped x))).
Qed.

(** The disabled module. *)
Lemma onModuleInit_disabled discover config w :
  webhookConfig config = None →
  onModuleInit discover config w = (Normal (), w).
Proof. intros H. unfold onModuleInit. by rewrite H. Qed.

(** No secret at all. *)
Lemma onModuleInit_no_secret discover config wc w :
  webhookConfig config = Some wc →
  someSecret wc = false →
  let errorMessage :=
    "missing stripe webhook secret. module is improperly configured and will be unable to process incoming webhooks from Stripe" in
  onModuleInit discover config w =
  (Throw errorMessage,
   {| journal := journal w ++ [LoggerError errorMessage]; heap := heap w |}).
Proof.
  intros Hwc Hnone. unfold someSecret in Hnone.
  apply orb_false_iff in Hnone as [Ha Hc].
  unfold onModuleInit. by rewrite Hwc, Ha, Hc.
Qed.

Lemma no_secret_false wc :
  someSecret wc = true →
  negb (truthy (account (stripeSecrets wc))) &&
  negb (truthy (connect (stripeSecrets wc))) = false.
Proof. unfold someSecret. intros H. by rewrite <- negb_orb, H. Qed.

(** A secret, but no webhook service object to wire. *)
Lemma onModuleInit_not_found discover config wc w :
  webhookConfig config = Some wc →
  someSecret wc = true →
  (∀ r, firstInstance discover ≠ Some (Some (StripeWebhookServiceObj r))) →
  onModuleInit discover config w =
  (Throw "Could not find instance of Stripe Webhook Service",
   {| journal := journal w
        ++ [LoggerLog "Initializing Stripe Module for webhooks";
            ProvidersWithMetaAtKey STRIPE_WEBHOOK_SERVICE];
      heap := heap w |}).
Proof.
  intros Hwc Hsome Hnone.
  unfold onModuleInit. rewrite Hwc, (no_secret_false wc Hsome).
  rewrite bind_run. unfold loggerLog at 1. rewrite record_run.
  rewrite bind_run. unfold discoverProviders. rewrite bind_run, record_run.
  simpl. rewrite <- app_assoc. simpl. unfold firstInstance in Hnone.
  destruct (head _) as [[[r|r]|]|]; try reflexivity.
  by destruct (Hnone r).
Qed.

(** A secret and a webhook service object: both passes run, whichever
    secret is configured, and both dispatch functions are written. *)
Lemma onModuleInit_ready discover config wc r w :
  webhookConfig config = Some wc →
  someSecret wc = true →
  firstInstance discover = Some (Some (StripeWebhookServiceObj r)) →
  onModuleInit discover config w =
  (Normal (),
   {| journal := journal w ++ readyJournal discover;
      heap := <[r := wired discover]> (heap w) |}).
Proof.
  intros Hwc Hsome Hfound.
  unfold onModuleInit. rewrite Hwc, (no_secret_false wc Hsome).
  rewrite bind_run. unfold loggerLog at 1. rewrite record_run.
  rewrite bind_run. unfold discoverProviders. rewrite bind_run, record_run.
  simpl. unfold firstInstance in Hfound. rewrite Hfound.
  rewrite bind_run. unfold discoverProviderMethods at 1.
  rewrite bind_run, record_run. simpl.
  rewrite bind_run, register_run. simpl.
  rewrite bind_run. unfold setHandleWebhook at 1. simpl.
  rewrite bind_run. unfold discoverProviderMethods at 1.
  rewrite bind_run, record_run. simpl.
  rewrite bind_run, register_run. simpl.
  unfold setHandleConnectWebhook. simpl.
  f_equal. f_equal.
  - unfold readyJournal, registrationLog. by rewrite <- !app_assoc.
  - rewrite lookup_insert_eq. simpl. by rewrite insert_insert_eq.
Qed.

(** C9: without a webhook configuration, [onModuleInit] returns without
    an error and without having done anything: nothing is logged, no
    discovery query is made, and no dispatch function is written to any
    webhook service object (the world is unchanged). *)
Theorem onModuleInit_without_webhookConfig :
  ∀ (discover : DiscoveryService) (apiKey : string) (w : World),
    let config := {| apiKey := apiKey; webhookConfig := None |} in
    let result := onModuleInit discover config w in
    result = (Normal (), w)
    ∧ discoveryQueries (journal result.2) = discoveryQueries (journal w)
    ∧ heap result.2 = heap w
    ∧ ∀ r namespace, dispatchFnOf result.2 r namespace = dispatchFnOf w r namespace.
Proof.
  intros discover apiKey w config result.
  assert (Hresult : result = (Normal (), w))
    by by apply onModuleInit_disabled.
  by rewrite Hresult.
Qed.

(** C4: with a webhook configuration in which neither the account secret
    nor the connect secret is present (absent, or the empty string),
    [onModuleInit] logs the error and throws it. It makes no discovery
    query, writes no dispatch function, and the module is not ready. *)
Theorem onModuleInit_no_secrets_provided :
  ∀ (discover : DiscoveryService) (config : StripeModuleConfig)
    (wc : WebhookConfig) (w : World),
    let errorMessage :=
      "missing stripe webhook secret. module is improperly configured and will be unable to process incoming webhooks from Stripe" in
    let result := onModuleInit discover config w in
    webhookConfig config = Some wc →
    truthy (account (stripeSecrets wc)) = false →
    truthy (connect (stripeSecrets wc)) = false →
    result = (Throw errorMessage,
              {| journal := journal w ++ [LoggerError errorMessage];
                 heap := heap w |})
    ∧ discoveryQueries (journal result.2) = discoveryQueries (journal w)
    ∧ heap result.2 = heap w
    ∧ ¬ ready result.
Proof.
  intros discover config wc w errorMessage result Hwc Ha Hc.
  assert (Hnone : someSecret wc = false)
    by (unfold someSecret; by rewrite Ha, Hc).
  pose proof (onModuleInit_no_secret discover config wc w Hwc Hnone)
    as Hresult.
  simpl in Hresult. fold result in Hresult. rewrite Hresult. simpl.
  split; [done|]. split.
  - unfold discoveryQueries. rewrite omap_app. simpl. apply app_nil_r.
  - split; [done|]. by intros (r & f & g & Hthrow & _).
Qed.

Lemma onModuleInit_no_secrets_provided_witness :
  (onModuleInit (Container.scan [webhookServiceProvider])
     {| apiKey := "sk_test";
        webhookConfig :=
          Some {| stripeSecrets := {| account := None; connect := None |};
                  loggingConfiguration := None |} |} boot).1
  = Throw "missing stripe webhook secret. module is improperly configured and will be unable to process incoming webhooks from Stripe".
Proof.
  pose proof (onModuleInit_no_secrets_provided
                (Container.scan [webhookServiceProvider])
                {| apiKey := "sk_test";
                   webhookConfig :=
                     Some {| stripeSecrets := {| account := None; connect := None |};
                             loggingConfiguration := None |} |}
                {| stripeSecrets := {| account := None; connect := None |};
                   loggingConfiguration := None |}
                boot eq_refl eq_refl eq_refl) as [Hresult _].
  by rewrite Hresult.
Defined.

(** C8: with a webhook configuration and at least one secret, when none of
    the providers discovered under the webhook-service marker is an
    instance of the webhook service (in particular when none is discovered
    at all), [onModuleInit] throws. It does so straight after that one
    query: no handler discovery is made, no table is built, no dispatch
    function is written, and the module is not ready. *)
Theorem onModuleInit_missing_webhook_service :
  ∀ (discover : DiscoveryService) (config : StripeModuleConfig)
    (wc : WebhookConfig) (w : World),
    let result := onModuleInit discover config w in
    webhookConfig config = Some wc →
    someSecret wc = true →
    (∀ x r, x ∈ default [] (providersWithMetaAtKey STRIPE_WEBHOOK_SERVICE) →
            Discovered.instance (Discovered.discoveredClass x)
            ≠ Some (StripeWebhookServiceObj r)) →
    result = (Throw "Could not find instance of Stripe Webhook Service",
              {| journal := journal w
                   ++ [LoggerLog "Initializing Stripe Module for webhooks";
                       ProvidersWithMetaAtKey STRIPE_WEBHOOK_SERVICE];
                 heap := heap w |})
    ∧ discoveryQueries (journal result.2)
      = discoveryQueries (journal w) ++ [STRIPE_WEBHOOK_SERVICE]
    ∧ heap result.2 = heap w
    ∧ ¬ ready result.
Proof.
  intros discover config wc w result Hwc Hsome Hnone.
  assert (Hfirst : ∀ r, firstInstance discover
                        ≠ Some (Some (StripeWebhookServiceObj r))).
  { intros r Hr. unfold firstInstance in Hr.
    destruct (default [] (providersWithMetaAtKey STRIPE_WEBHOOK_SERVICE))
      as [|x found]; [done|].
    simpl in Hr. injection Hr as Hr. apply (Hnone x r); [left|done]. }
  pose proof (onModuleInit_not_found discover config wc w Hwc Hsome Hfirst)
    as Hresult.
  fold result in Hresult. rewrite Hresult. simpl.
  split; [done|]. split.
  - unfold discoveryQueries. by rewrite omap_app.
  - split; [done|]. by intros (r & f & g & Hthrow & _).
Qed.

Lemma onModuleInit_missing_webhook_service_witness :
  (onModuleInit (Container.scan [billing "charge.succeeded"
                                   (λ _, Fulfilled) (λ _, Fulfilled)])
     primaryOnly boot).1
  = Throw "Could not find instance of Stripe Webhook Service".
Proof.
  pose proof (onModuleInit_missing_webhook_service
                (Container.scan [billing "charge.succeeded"
                                   (λ _, Fulfilled) (λ _, Fulfilled)])
                primaryOnly
                {| stripeSecrets := {| account := Some "whsec_a"; connect := None |};
                   loggingConfiguration := None |}
                boot eq_refl eq_refl) as Hthrows.
  destruct Hthrows as [Hresult _].
  - intros x r Hx. simpl in Hx. by apply elem_of_nil in Hx.
  - by rewrite Hresult.
Defined.

(** ** Discovery over a container *)

Lemma toBinding_methodsWithMetaAtKey metaKey p :
  map toBinding (Container.methodsWithMetaAtKey metaKey p) =
  omap (λ m, bindingOf p m <$> Container.metadata m metaKey)
       (Container.methods p).
Proof.
  unfold Container.methodsWithMetaAtKey.
  induction (Container.methods p) as [|m ms IH]; [done|].
  cbn [omap list_omap].
  destruct (Container.metadata m metaKey) as [eventType|]; simpl; [|done].
  by f_equal.
Qed.

Lemma toBinding_scan metaKey providers :
  map toBinding
    (@providerMethodsWithMetaAtKey (Container.scan providers) metaKey)
  = bindingsAt metaKey providers.
Proof.
  unfold bindingsAt.
  change (@providerMethodsWithMetaAtKey (Container.scan providers) metaKey)
    with (p ← providers; Container.methodsWithMetaAtKey metaKey p).
  induction providers as [|p providers IH]; [done|].
  by rewrite !bind_cons, map_app, IH, toBinding_methodsWithMetaAtKey.
Qed.

Lemma elem_of_bindingsAt metaKey providers b :
  b ∈ bindingsAt metaKey providers ↔
  ∃ p m, p ∈ providers ∧ m ∈ Container.methods p
         ∧ Container.metadata m metaKey = Some (key b)
         ∧ b = bindingOf p m (key b).
Proof.
  unfold bindingsAt. rewrite list_elem_of_bind. split.
  - intros (p & (m & Hm & Hb)%list_elem_of_omap & Hp).
    destruct (Container.metadata m metaKey) as [eventType|] eqn:Hmeta;
      simpl in Hb; [|done].
    injection Hb as <-. exists p, m. by rewrite Hmeta.
  - intros (p & m & Hp & Hm & Hmeta & Hb).
    exists p. split; [|done]. apply list_elem_of_omap.
    exists m. split; [done|]. rewrite Hmeta. simpl. by rewrite <- Hb.
Qed.

(** The two tables of a ready module over a container. *)
Lemma onModuleInit_tables config wc providers r w :
  webhookConfig config = Some wc →
  someSecret wc = true →
  firstInstance (Container.scan providers)
    = Some (Some (StripeWebhookServiceObj r)) →
  let result := onModuleInit (Container.scan providers) config w in
  ∃ primaryTable connectTable,
    result.1 = Normal ()
    ∧ dispatchFnOf result.2 r Primary = Some (HandleWebhookFn primaryTable)
    ∧ dispatchFnOf result.2 r Connect = Some (ConnectHandleWebhookFn connectTable)
    ∧ primaryTable ≡ₚ bindingsAt STRIPE_WEBHOOK_HANDLER providers
    ∧ connectTable ≡ₚ bindingsAt STRIPE_CONNECT_WEBHOOK_HANDLER providers.
Proof.
  intros Hwc Hsome Hfound result. subst result.
  rewrite (onModuleInit_ready _ config wc r w Hwc Hsome Hfound).
  eexists _, _. split; [done|].
  unfold dispatchFnOf. simpl. rewrite lookup_insert_eq. simpl.
  split; [done|]. split; [done|].
  split; rewrite tableFrom_Permutation, <- toBinding_scan; reflexivity.
Qed.

(** C5, as the code has it: with at least one secret set (and a webhook
    service object to wire), each table holds exactly the bindings of the
    methods that carry its own marker, once each: a binding is in the
    primary DispatchTable exactly when it is the binding of a method that
    carries the primary-webhook marker, keyed by that marker's payload, and
    in the connect DispatchTable exactly when it is the binding of a method
    that carries the connect-webhook marker. The other marker plays no
    part, so a method that carries both markers is in both tables. *)
Theorem discovery_by_own_marker :
  ∀ (config : StripeModuleConfig) (wc : WebhookConfig)
    (providers : list Container.Provider) (r : nat) (w : World),
    let result := onModuleInit (Container.scan providers) config w in
    webhookConfig config = Some wc →
    someSecret wc = true →
    firstInstance (Container.scan providers)
      = Some (Some (StripeWebhookServiceObj r)) →
    ∃ primaryTable connectTable,
      result.1 = Normal ()
      ∧ dispatchTable result.2 r Primary = Some primaryTable
      ∧ dispatchTable result.2 r Connect = Some connectTable
      ∧ primaryTable ≡ₚ bindingsAt STRIPE_WEBHOOK_HANDLER providers
      ∧ connectTable ≡ₚ bindingsAt STRIPE_CONNECT_WEBHOOK_HANDLER providers
      ∧ (∀ b, b ∈ primaryTable ↔
              ∃ p m, p ∈ providers ∧ m ∈ Container.methods p
                     ∧ Container.metadata m STRIPE_WEBHOOK_HANDLER = Some (key b)
                     ∧ b = bindingOf p m (key b))
      ∧ (∀ b, b ∈ connectTable ↔
              ∃ p m, p ∈ providers ∧ m ∈ Container.methods p
                     ∧ Container.metadata m STRIPE_CONNECT_WEBHOOK_HANDLER
                       = Some (key b)
                     ∧ b = bindingOf p m (key b)).
Proof.
  intros config wc providers r w result Hwc Hsome Hfound.
  destruct (onModuleInit_tables config wc providers r w Hwc Hsome Hfound)
    as (primaryTable & connectTable & Hret & Hp & Hc & Hpp & Hpc).
  exists primaryTable, connectTable. fold result in Hret, Hp, Hc.
  unfold dispatchTable. rewrite Hp, Hc. simpl.
  repeat (split; [done|]). split; intros b.
  - by rewrite Hpp, elem_of_bindingsAt.
  - by rewrite Hpc, elem_of_bindingsAt.
Qed.

Lemma discovery_by_own_marker_witness :
  (onModuleInit (Container.scan [webhookServiceProvider; ledger])
     primaryOnly boot).1 = Normal ().
Proof.
  destruct (discovery_by_own_marker primaryOnly
              {| stripeSecrets := {| account := Some "whsec_a"; connect := None |};
                 loggingConfiguration := None |}
              [webhookServiceProvider; ledger] 0 boot eq_refl eq_refl eq_refl)
    as (primaryTable & connectTable & Hreturns & _).
  exact Hreturns.
Defined.

(** C5 fails as worded: a method that carries both decorators is tagged
    with the connect-webhook marker and is in the primary table (and is
    tagged with the primary-webhook marker and is in the connect table). *)
Lemma namespaces_not_partitioned :
  ¬ namespaces_partitioned primaryOnly [webhookServiceProvider; ledger] 0.
Proof.
  intros H.
  destruct (H ledger onEitherCharge
              [bindingOf ledger onEitherCharge "charge.succeeded"]
              [bindingOf ledger onEitherCharge "charge.succeeded"])
    as [Hprimary _].
  - right; left.
  - left.
  - reflexivity.
  - reflexivity.
  - apply Hprimary; [by eexists|].
    eexists. split; [left|reflexivity].
Qed.

Lemma matching_singleton b :
  matching (key b) [b] = [b].
Proof. unfold matching. by rewrite filter_cons_True, filter_nil. Qed.

Lemma invoked_singleton config f b ev :
  tableOf f = [b] → key b = type ev →
  invoked (effects (applyDispatchFn config f ev)) = [handler b].
Proof.
  intros Htable Hkey.
  rewrite dispatch_invoked; rewrite Htable, <- Hkey, matching_singleton; done.
Qed.

(** C3, as the code has it: with only the primary secret configured and a
    component that has one method tagged for the primary namespace and one
    tagged for the connect namespace with the same event type, discovery
    registers both, each in the table of its own namespace. Dispatching
    that event type on the primary namespace invokes the primary handler
    once; dispatching it on the connect namespace invokes the connect
    handler once: the connect table is not empty. *)
Theorem discovery_ignores_which_secret :
  ∀ (secret eventType data : string)
    (onPrimary onConnect : WebhookEvent → Outcome) (w : World),
    let config := onlyAccountSecret secret in
    let providers :=
      [webhookServiceProvider; billing eventType onPrimary onConnect] in
    let webhookEvent := {| type := eventType; data := data |} in
    let result := onModuleInit (Container.scan providers) config w in
    let primaryHandler :=
      create (Some (ProviderObj 1)) onPrimary "onCharge" "stripe_webhook" in
    let connectHandler :=
      create (Some (ProviderObj 1)) onConnect "onConnectCharge" "stripe_webhook" in
    secret ≠ "" →
    result.1 = Normal ()
    ∧ dispatchTable result.2 0 Primary
      = Some [{| key := eventType; handler := primaryHandler |}]
    ∧ dispatchTable result.2 0 Connect
      = Some [{| key := eventType; handler := connectHandler |}]
    ∧ routed config result.2 0 Primary webhookEvent = Some [primaryHandler]
    ∧ routed config result.2 0 Connect webhookEvent = Some [connectHandler].
Proof.
  intros secret eventType data onPrimary onConnect w config providers ev
    result primaryHandler connectHandler Hsecret.
  assert (Hsome : someSecret
                    {| stripeSecrets := {| account := Some secret; connect := None |};
                       loggingConfiguration := None |} = true).
  { unfold someSecret. simpl. by destruct secret. }
  subst result.
  rewrite (onModuleInit_ready (Container.scan providers) config _ 0 w
             eq_refl Hsome eq_refl).
  unfold routed, dispatchTable, dispatchFnOf. simpl.
  rewrite lookup_insert_eq. simpl.
  assert (Hp : tableFrom
                 (@providerMethodsWithMetaAtKey (Container.scan providers)
                    STRIPE_WEBHOOK_HANDLER)
               = [{| key := eventType; handler := primaryHandler |}])
    by reflexivity.
  assert (Hc : tableFrom
                 (@providerMethodsWithMetaAtKey (Container.scan providers)
                    STRIPE_CONNECT_WEBHOOK_HANDLER)
               = [{| key := eventType; handler := connectHandler |}])
    by reflexivity.
  split; [done|]. split; [by rewrite <- Hp|]. split; [by rewrite <- Hc|].
  split; f_equal.
  - by apply (invoked_singleton config (HandleWebhookFn _)
                {| key := eventType; handler := primaryHandler |} ev).
  - by apply (invoked_singleton config (ConnectHandleWebhookFn _)
                {| key := eventType; handler := connectHandler |} ev).
Qed.

Lemma discovery_ignores_which_secret_witness :
  "whsec_a" ≠ ""
  ∧ routed primaryOnly
      (onModuleInit
         (Container.scan
            [webhookServiceProvider;
             billing "charge.succeeded" (λ _, Fulfilled) (λ _, Fulfilled)])
         primaryOnly boot).2
      0 Connect chargeSucceeded
    = Some [create (Some (ProviderObj 1)) (λ _, Fulfilled)
              "onConnectCharge" "stripe_webhook"].
Proof.
  assert (Hsecret : "whsec_a" ≠ "") by discriminate.
  split; [exact Hsecret|].
  exact (proj2 (proj2 (proj2 (proj2
           (discovery_ignores_which_secret "whsec_a" "charge.succeeded" "{}"
              (λ _, Fulfilled) (λ _, Fulfilled) boot Hsecret))))).
Defined.

(** C3 fails as worded: the connect table holds the connect handler, and
    a connect dispatch of the event type invokes it. *)
Lemma connect_also_registered :
  ¬ only_primary_registered primaryOnly
      [webhookServiceProvider;
       billing "charge.succeeded" (λ _, Fulfilled) (λ _, Fulfilled)]
      0 chargeSucceeded
      (create (Some (ProviderObj 1)) (λ _, Fulfilled) "onCharge" "stripe_webhook").
Proof. intros (_ & Hempty & _). vm_compute in Hempty. discriminate. Qed.

(** * Further properties of the code *)

(** ** Dispatch *)

Lemma dispatch_invoked_all config f ev :
  invoked (effects (applyDispatchFn config f ev))
  = map handler (matching (type ev) (tableOf f)).
Proof.
  destruct (matching (type ev) (tableOf f)) as [|b rest] eqn:Hm.
  - by rewrite (dispatch_unmatched config f ev Hm).
  - rewrite <- Hm. apply dispatch_invoked. by rewrite Hm.
Qed.

(** X1: a dispatch call invokes exactly the handlers of the table's
    bindings whose key equals the event's type, in table order (they are
    a sublist of the table's handlers), each on the event it was given;
    it never invokes a handler registered for another type, and this stays
    so while the handlers settle. *)
Theorem dispatch_only_matching :
  ∀ (config : StripeModuleConfig) (f : DispatchFn) (webhookEvent : WebhookEvent)
    (schedule : list nat),
    let c := run schedule (applyDispatchFn config f webhookEvent) in
    invoked (effects c) = map handler (matching (type webhookEvent) (tableOf f))
    ∧ invoked (effects c) `sublist_of` map handler (tableOf f)
    ∧ ∀ h ev, Invoke h ev ∈ effects c →
        ev = webhookEvent
        ∧ ∃ b, b ∈ tableOf f ∧ key b = type webhookEvent ∧ handler b = h.
Proof.
  intros config f ev schedule c. unfold c. rewrite run_effects.
  rewrite dispatch_invoked_all. split; [done|]. split.
  { apply (fmap_sublist handler), sublist_filter. }
  intros h ev' Hin.
  destruct (matching (type ev) (tableOf f)) as [|b0 rest] eqn:Hm.
  { rewrite (dispatch_unmatched config f ev Hm) in Hin.
    by apply elem_of_nil in Hin. }
  assert (Hne : matching (type ev) (tableOf f) ≠ []) by by rewrite Hm.
  destruct (dispatch_matching config f ev Hne) as (lg & Hlg & Hc).
  rewrite Hc in Hin. simpl in Hin.
  apply elem_of_app in Hin as [Hin|Hin].
  { rewrite Forall_forall in Hlg. by destruct (Hlg _ Hin). }
  apply elem_of_app in Hin as [Hin|Hin].
  - apply list_elem_of_fmap in Hin as (b & [= -> ->] & Hb).
    split; [done|]. exists b.
    apply list_elem_of_filter in Hb as [Hkey Hb]. done.
  - by apply list_elem_of_singleton in Hin.
Qed.

(** X2: routing depends neither on the logging configuration nor on which
    of the two dispatch functions runs: with the same table, the same
    event and the same order of completion, the handlers invoked, their
    promises and the promise returned are the same. *)
Theorem routing_independent_of_logging :
  ∀ (config config' : StripeModuleConfig) (f f' : DispatchFn)
    (webhookEvent : WebhookEvent) (schedule : list nat),
    let c := run schedule (applyDispatchFn config f webhookEvent) in
    let c' := run schedule (applyDispatchFn config' f' webhookEvent) in
    tableOf f = tableOf f' →
    invoked (effects c) = invoked (effects c')
    ∧ invocations c = invocations c'
    ∧ returned c = returned c'.
Proof.
  intros config config' f f' ev schedule c c' Htable. unfold c, c'.
  rewrite !run_effects, !dispatch_invoked_all, Htable. split; [done|].
  destruct (matching (type ev) (tableOf f')) as [|b0 rest] eqn:Hm.
  - rewrite (dispatch_unmatched config f ev) by by rewrite Htable.
    by rewrite (dispatch_unmatched config' f' ev).
  - assert (Hne' : matching (type ev) (tableOf f') ≠ []) by by rewrite Hm.
    assert (Hne : matching (type ev) (tableOf f) ≠ []) by by rewrite Htable.
    destruct (dispatch_run config f ev schedule Hne) as [-> ->].
    destruct (dispatch_run config' f' ev schedule Hne') as [-> ->].
    by rewrite Htable.
Qed.

Lemma routing_independent_of_logging_witness :
  tableOf (HandleWebhookFn invoicePaidTable)
    = tableOf (ConnectHandleWebhookFn invoicePaidTable)
  ∧ returned (run [1; 0] (applyDispatchFn primaryOnly
                            (HandleWebhookFn invoicePaidTable) invoicePaid))
    = returned (run [1; 0] (applyDispatchFn (onlyAccountSecret "whsec_b")
                              (ConnectHandleWebhookFn invoicePaidTable)
                              invoicePaid)).
Proof.
  assert (Htable : tableOf (HandleWebhookFn invoicePaidTable)
                   = tableOf (ConnectHandleWebhookFn invoicePaidTable))
    by reflexivity.
  split; [exact Htable|].
  exact (proj2 (proj2
           (routing_independent_of_logging primaryOnly
              (onlyAccountSecret "whsec_b")
              (HandleWebhookFn invoicePaidTable)
              (ConnectHandleWebhookFn invoicePaidTable)
              invoicePaid [1; 0] Htable))).
Defined.

Lemma logged_app es es' : logged (es ++ es') = logged es ++ logged es'.
Proof. apply omap_app. Qed.

Lemma logged_Invoke ev handlers :
  logged (map (λ x, Invoke (handler x) ev) handlers) = [].
Proof. by induction handlers. Qed.

(** X3: a dispatch call writes at most one log line. It writes one exactly
    when [logMatchingEventHandlers] is set to true and at least one handler
    matches; the line names the event type and the number of matching
    handlers, and it is written before any handler is called. With no
    matching handler nothing is logged even when logging is on. *)
Theorem dispatch_log_line :
  ∀ (config : StripeModuleConfig) (f : DispatchFn) (webhookEvent : WebhookEvent),
    let handlers := matching (type webhookEvent) (tableOf f) in
    let c := applyDispatchFn config f webhookEvent in
    let line :=
      received f +:+ type webhookEvent +:+ ". Forwarding to " +:+
      pretty (length handlers) +:+ " event handlers" in
    logged (effects c)
    = (if logMatching config && negb (bool_decide (handlers = []))
       then [line] else [])
    ∧ ∃ rest, effects c = map Log (logged (effects c)) ++ rest
              ∧ logged rest = [].
Proof.
  intros config f ev handlers c line. subst c.
  destruct (decide (handlers = [])) as [Hnil|Hne].
  - rewrite (dispatch_unmatched config f ev Hnil). simpl.
    rewrite bool_decide_true by done. rewrite andb_false_r.
    split; [done|]. by exists [].
  - rewrite bool_decide_false by done. rewrite andb_true_r.
    assert (Hlen : length handlers ≠ 0) by by destruct handlers.
    subst line.
    destruct f as [table|table]; simpl in *;
      unfold handleWebhook, ConnectHandleWebhook;
      fold (matching (type ev) table); fold handlers;
      (destruct (decide (length handlers = 0)); [done|]);
      simpl; rewrite length_map;
      destruct (logMatching config); simpl;
      rewrite ?logged_app, logged_Invoke; simpl;
      (split; [done|]); eexists; (split; [reflexivity|]);
      by rewrite logged_app, logged_Invoke.
Qed.




(** ** The tables *)

Section GroupByFacts.
Context {A : Type}.
Implicit Types (grouped : list (string * list A)) (k : string) (x : A).



End GroupByFacts.







(** Discovery met a method of [A], one of [B], then another of [A]: the
    table lists both of [A] before the one of [B]. *)
Example tableFrom_regroups :
  map (λ b, methodName (handler b))
    (tableFrom [discoveredHandler "A" "a1" "invoice.paid";
                discoveredHandler "B" "b1" "invoice.paid";
                discoveredHandler "A" "a2" "charge.succeeded"])
  = ["a1"; "a2"; "b1"].
Proof. reflexivity. Qed.

Lemma filter_toBinding eventType metas :
  filter (λ b, key b = eventType) (map toBinding metas)
  = map toBinding (filter (λ x, Discovered.meta x = eventType) metas).
Proof.
  induction metas as [|x metas IH]; [done|]. simpl.
  destruct (decide (Discovered.meta x = eventType)) as [Heq|Hne].
  - rewrite (filter_cons_True (λ b, key b = eventType)) by done.
    rewrite (filter_cons_True (λ y, Discovered.meta y = eventType)) by done.
    simpl. by rewrite IH.
  - rewrite (filter_cons_False (λ b, key b = eventType)) by done.
    by rewrite (filter_cons_False (λ y, Discovered.meta y = eventType)).
Qed.

Lemma matching_tableFrom eventType metas :
  map handler (matching eventType (tableFrom metas))
  ≡ₚ handlersFor metas eventType.
Proof.
  unfold matching, handlersFor.
  rewrite (tableFrom_Permutation metas), filter_toBinding.
  by rewrite map_map.
Qed.


(** ** Initialisation, further *)






(** X8: only the first provider discovery lists under the webhook-service
    marker is considered. When that one is not a webhook service instance
    (or has no instance), initialisation throws, even if a webhook service
    instance comes later in the list. *)
Theorem onModuleInit_first_service_only :
  ∀ (discover : DiscoveryService) (config : StripeModuleConfig)
    (wc : WebhookConfig) (w : World)
    (x : Discovered.ClassWithMeta) (rest : list Discovered.ClassWithMeta),
    let result := onModuleInit discover config w in
    webhookConfig config = Some wc →
    someSecret wc = true →
    providersWithMetaAtKey STRIPE_WEBHOOK_SERVICE = Some (x :: rest) →
    (∀ r, Discovered.instance (Discovered.discoveredClass x)
          ≠ Some (StripeWebhookServiceObj r)) →
    result.1 = Throw "Could not find instance of Stripe Webhook Service"
    ∧ heap result.2 = heap w.
Proof.
  intros discover config wc w x rest result Hwc Hsome Hfound Hx.
  assert (Hfirst : ∀ r, firstInstance discover
                        ≠ Some (Some (StripeWebhookServiceObj r))).
  { intros r. unfold firstInstance. rewrite Hfound. simpl.
    intros [= Hr]. by apply (Hx r). }
  subst result.
  by rewrite (onModuleInit_not_found discover config wc w Hwc Hsome Hfirst).
Qed.

Lemma onModuleInit_first_service_only_witness :
  (onModuleInit (Container.scan [impostor; webhookServiceProvider])
     primaryOnly boot).1
  = Throw "Could not find instance of Stripe Webhook Service".
Proof.
  refine (proj1 (onModuleInit_first_service_only
                   (Container.scan [impostor; webhookServiceProvider])
                   primaryOnly
                   {| stripeSecrets := {| account := Some "whsec_a"; connect := None |};
                      loggingConfiguration := None |}
                   boot _ _ eq_refl eq_refl eq_refl _)).
  intros r. discriminate.
Defined.




(** X11: initialisation reads the configuration only to decide whether a
    webhook configuration is there and whether some secret is set. Two
    configurations that both have a secret, whichever and whatever its
    value, and whatever their API key and logging configuration, are
    initialised alike: same completion, same journal, same tables. *)
Theorem onModuleInit_secret_values_irrelevant :
  ∀ (discover : DiscoveryService) (config config' : StripeModuleConfig)
    (wc wc' : WebhookConfig) (w : World),
    webhookConfig config = Some wc →
    webhookConfig config' = Some wc' →
    someSecret wc = true →
    someSecret wc' = true →
    onModuleInit discover config w = onModuleInit discover config' w.
Proof.
  intros discover config config' wc wc' w Hwc Hwc' Hsome Hsome'.
  destruct (firstInstance discover) as [[[r|r]|]|] eqn:Hfirst.
  - rewrite (onModuleInit_ready discover config wc r w Hwc Hsome Hfirst).
    by rewrite (onModuleInit_ready discover config' wc' r w Hwc' Hsome' Hfirst).
  - rewrite (onModuleInit_not_found discover config wc w Hwc Hsome),
      (onModuleInit_not_found discover config' wc' w Hwc' Hsome');
      try done; intros r0; by rewrite Hfirst.
  - rewrite (onModuleInit_not_found discover config wc w Hwc Hsome),
      (onModuleInit_not_found discover config' wc' w Hwc' Hsome');
      try done; intros r0; by rewrite Hfirst.
  - rewrite (onModuleInit_not_found discover config wc w Hwc Hsome),
      (onModuleInit_not_found discover config' wc' w Hwc' Hsome');
      try done; intros r0; by rewrite Hfirst.
Qed.

Lemma onModuleInit_secret_values_irrelevant_witness :
  onModuleInit (Container.scan [webhookServiceProvider; ledger]) primaryOnly boot
  = onModuleInit (Container.scan [webhookServiceProvider; ledger]) bothSecrets boot.
Proof.
  exact (onModuleInit_secret_values_irrelevant
           (Container.scan [webhookServiceProvider; ledger])
           primaryOnly bothSecrets _ _ boot eq_refl eq_refl eq_refl eq_refl).
Defined.

(** X12: initialisation and dispatch together, for any discovery answer.
    Once the module is ready, dispatching an event on a namespace invokes
    the handlers of exactly the methods discovery listed under that
    namespace's marker with the event's type as payload, each once; the
    methods listed under the other marker play no part. *)
Theorem routed_after_init :
  ∀ (discover : DiscoveryService) (config : StripeModuleConfig)
    (wc : WebhookConfig) (r : nat) (w : World) (webhookEvent : WebhookEvent),
    let result := onModuleInit discover config w in
    webhookConfig config = Some wc →
    someSecret wc = true →
    firstInstance discover = Some (Some (StripeWebhookServiceObj r)) →
    ∃ primaryHandlers connectHandlers,
      routed config result.2 r Primary webhookEvent = Some primaryHandlers
      ∧ primaryHandlers
        ≡ₚ handlersFor (providerMethodsWithMetaAtKey STRIPE_WEBHOOK_HANDLER)
             (type webhookEvent)
      ∧ routed config result.2 r Connect webhookEvent = Some connectHandlers
      ∧ connectHandlers
        ≡ₚ handlersFor
             (providerMethodsWithMetaAtKey STRIPE_CONNECT_WEBHOOK_HANDLER)
             (type webhookEvent).
Proof.
  intros discover config wc r w ev result Hwc Hsome Hfound. subst result.
  rewrite (onModuleInit_ready discover config wc r w Hwc Hsome Hfound).
  set (primaryTable :=
         tableFrom (providerMethodsWithMetaAtKey STRIPE_WEBHOOK_HANDLER)).
  set (connectTable :=
         tableFrom (providerMethodsWithMetaAtKey STRIPE_CONNECT_WEBHOOK_HANDLER)).
  exists (invoked (effects (applyDispatchFn config
                              (HandleWebhookFn primaryTable) ev))),
         (invoked (effects (applyDispatchFn config
                              (ConnectHandleWebhookFn connectTable) ev))).
  unfold routed, dispatchFnOf. cbn [snd heap].
  rewrite lookup_insert_eq. unfold wired.
  cbn [mbind option_bind StripeWebhookService.handleWebhook
       StripeWebhookService.handleConnectWebhook].
  rewrite !dispatch_invoked_all.
  split; [reflexivity|]. split; [apply matching_tableFrom|].
  split; [reflexivity|]. apply matching_tableFrom.
Qed.

Lemma routed_after_init_witness :
  ∃ primaryHandlers connectHandlers,
    routed primaryOnly
      (onModuleInit (Container.scan [webhookServiceProvider; ledger])
         primaryOnly boot).2 0 Primary chargeSucceeded
    = Some primaryHandlers
    ∧ primaryHandlers
      ≡ₚ handlersFor
           (@providerMethodsWithMetaAtKey
              (Container.scan [webhookServiceProvider; ledger])
              STRIPE_WEBHOOK_HANDLER)
           (type chargeSucceeded)
    ∧ routed primaryOnly
        (onModuleInit (Container.scan [webhookServiceProvider; ledger])
           primaryOnly boot).2 0 Connect chargeSucceeded
      = Some connectHandlers
    ∧ connectHandlers
      ≡ₚ handlersFor
           (@providerMethodsWithMetaAtKey
              (Container.scan [webhookServiceProvider; ledger])
              STRIPE_CONNECT_WEBHOOK_HANDLER)
           (type chargeSucceeded).
Proof.
  exact (routed_after_init
           (Container.scan [webhookServiceProvider; ledger]) primaryOnly
           {| stripeSecrets := {| account := Some "whsec_a"; connect := None |};
              loggingConfiguration := None |}
           0 boot chargeSucceeded eq_refl eq_refl eq_refl).
Defined.

Lemma truthy_orEmptyString s : truthy s = false ↔ orEmptyString s = "".
Proof. destruct s as [[|a s]|]; simpl; split; done. Qed.

(** X13: the module and the payload service read the secrets alike. With
    a webhook configuration, [onModuleInit] throws the missing-secret
    error exactly when the payload service built from the same
    configuration holds the empty string for both secrets; so whenever
    initialisation gets past that guard, at least one namespace is
    verified against a non-empty secret. *)
Theorem missing_secret_iff_both_empty :
  ∀ (discover : DiscoveryService) (config : StripeModuleConfig)
    (wc : WebhookConfig) (w : World),
    let this := StripePayloadService.new config in
    webhookConfig config = Some wc →
    (onModuleInit discover config w).1
      = Throw "missing stripe webhook secret. module is improperly configured and will be unable to process incoming webhooks from Stripe"
    ↔ StripePayloadService.stripeWebhookSecret this = ""
      ∧ StripePayloadService.stripeConnectWebhookSecret this = "".
Proof.
  intros discover config wc w this Hwc.
  assert (Hboth : someSecret wc = false ↔
                  StripePayloadService.stripeWebhookSecret this = ""
                  ∧ StripePayloadService.stripeConnectWebhookSecret this = "").
  { subst this. unfold StripePayloadService.new, someSecret. rewrite Hwc.
    simpl. rewrite orb_false_iff, !truthy_orEmptyString. done. }
  rewrite <- Hboth. destruct (someSecret wc) eqn:Hsome.
  - split; [|done]. intros Hthrow.
    destruct (firstInstance discover) as [[[r|r]|]|] eqn:Hfirst.
    + by rewrite (onModuleInit_ready discover config wc r w Hwc Hsome Hfirst)
        in Hthrow.
    + rewrite (onModuleInit_not_found discover config wc w Hwc Hsome)
        in Hthrow; [done|]. intros r0. by rewrite Hfirst.
    + rewrite (onModuleInit_not_found discover config wc w Hwc Hsome)
        in Hthrow; [done|]. intros r0. by rewrite Hfirst.
    + rewrite (onModuleInit_not_found discover config wc w Hwc Hsome)
        in Hthrow; [done|]. intros r0. by rewrite Hfirst.
  - split; [done|]. intros _.
    pose proof (onModuleInit_no_secret discover config wc w Hwc Hsome) as H.
    simpl in H. by rewrite H.
Qed.

Lemma missing_secret_iff_both_empty_witness :
  StripePayloadService.stripeWebhookSecret
    (StripePayloadService.new
       {| apiKey := "sk_test";
          webhookConfig :=
            Some {| stripeSecrets := {| account := Some ""; connect := None |};
                    loggingConfiguration := None |} |}) = ""
  ∧ StripePayloadService.stripeConnectWebhookSecret
      (StripePayloadService.new
         {| apiKey := "sk_test";
            webhookConfig :=
              Some {| stripeSecrets := {| account := Some ""; connect := None |};
                      loggingConfiguration := None |} |}) = "".
Proof.
  refine (proj1 (missing_secret_iff_both_empty
                   (Container.scan [webhookServiceProvider])
                   {| apiKey := "sk_test";
                      webhookConfig :=
                        Some {| stripeSecrets :=
                                  {| account := Some ""; connect := None |};
                                loggingConfiguration := None |} |}
                   _ boot eq_refl) _).
  reflexivity.
Defined.

(** ** The provider factories *)

(** X14: what the Stripe client is built from. The client gets the
    configured API key, and its options are the module configuration
    without [apiKey] and without [webhookConfig]: the webhook secrets never
    reach the SDK's options, and every other property that is not
    [typescript] or [apiVersion] is passed on unchanged, absent ones staying
    absent. *)
Theorem stripe_client_options :
  ∀ (moduleConfig : gmap string JsValue) (k : string),
    let client := StripeClientFactory.useFactory moduleConfig in
    StripeClientFactory.apiKey client
      = default JsUndefined (moduleConfig !! "apiKey")
    ∧ StripeClientFactory.config client !! "webhookConfig" = None
    ∧ StripeClientFactory.config client !! "apiKey" = None
    ∧ (k ∈ ["apiKey"; "typescript"; "apiVersion"; "webhookConfig"]
       ∨ StripeClientFactory.config client !! k = moduleConfig !! k).
Proof.
  intros moduleConfig k client. subst client.
  unfold StripeClientFactory.useFactory. simpl.
  split; [done|]. split; [|split].
  - apply lookup_union_None. split.
    + apply lookup_delete_eq.
    + by rewrite !lookup_insert_ne.
  - apply lookup_union_None. split.
    + rewrite !lookup_delete_ne by done. apply lookup_delete_eq.
    + by rewrite !lookup_insert_ne.
  - destruct (decide (k ∈ ["apiKey"; "typescript"; "apiVersion"; "webhookConfig"]))
      as [Hin|Hout]; [by left|right].
    assert (k ≠ "apiKey" ∧ k ≠ "typescript" ∧ k ≠ "apiVersion"
            ∧ k ≠ "webhookConfig") as (H1 & H2 & H3 & H4).
    { repeat split; intros ->; apply Hout; set_solver. }
    rewrite lookup_union_l.
    + by rewrite !lookup_delete_ne.
    + by rewrite !lookup_insert_ne.
Qed.

(** X15: the two defaults of the Stripe client. The client's options always
    carry [typescript] and [apiVersion], never as [undefined]: each is the
    configured value when one is configured, [false] included, and
    otherwise [true] and ['2022-08-01']; the other configured options
    cannot override them. *)
Theorem stripe_client_defaults :
  ∀ (moduleConfig : gmap string JsValue),
    let client := StripeClientFactory.useFactory moduleConfig in
    StripeClientFactory.config client !! "typescript"
      = Some (StripeClientFactory.orDefault (JsBool true)
                (moduleConfig !! "typescript"))
    ∧ StripeClientFactory.config client !! "apiVersion"
      = Some (StripeClientFactory.orDefault (JsString "2022-08-01")
                (moduleConfig !! "apiVersion"))
    ∧ StripeClientFactory.config client !! "typescript" ≠ Some JsUndefined
    ∧ StripeClientFactory.config client !! "apiVersion" ≠ Some JsUndefined.
Proof.
  intros moduleConfig client. subst client.
  unfold StripeClientFactory.useFactory. simpl.
  assert (Hts : ∀ v : JsValue,
            (delete "webhookConfig"
               (delete "apiVersion"
                  (delete "typescript" (delete "apiKey" moduleConfig)))
             ∪ <["apiVersion" := v]>
                 (<["typescript" :=
                      StripeClientFactory.orDefault (JsBool true)
                        (moduleConfig !! "typescript")]> ∅)) !! "typescript"
            = Some (StripeClientFactory.orDefault (JsBool true)
                      (moduleConfig !! "typescript"))).
  { intros v. rewrite lookup_union_r.
    - rewrite lookup_insert_ne by done. apply lookup_insert_eq.
    - rewrite !lookup_delete_ne by done. apply lookup_delete_eq. }
  assert (Hav : ∀ v : JsValue,
            (delete "webhookConfig"
               (delete "apiVersion"
                  (delete "typescript" (delete "apiKey" moduleConfig)))
             ∪ <["apiVersion" :=
                   StripeClientFactory.orDefault (JsString "2022-08-01")
                     (moduleConfig !! "apiVersion")]>
                 (<["typescript" := v]> ∅)) !! "apiVersion"
            = Some (StripeClientFactory.orDefault (JsString "2022-08-01")
                      (moduleConfig !! "apiVersion"))).
  { intros v. rewrite lookup_union_r.
    - by rewrite lookup_insert_eq.
    - rewrite !lookup_delete_ne by done. apply lookup_delete_eq. }
  rewrite Hts, Hav. repeat split.
  - by destruct (moduleConfig !! "typescript") as [[]|].
  - by destruct (moduleConfig !! "apiVersion") as [[]|].
Qed.

(** TypeScript support switched off stays off, the API version is the
    default one, the SDK option is passed on, and neither the key nor the
    webhook configuration is among the options. *)
Example stripe_client_of_plainJsConfig :
  let client := StripeClientFactory.useFactory plainJsConfig in
  StripeClientFactory.apiKey client = JsString "sk_test"
  ∧ StripeClientFactory.config client !! "typescript" = Some (JsBool false)
  ∧ StripeClientFactory.config client !! "apiVersion"
    = Some (JsString "2022-08-01")
  ∧ StripeClientFactory.config client !! "maxNetworkRetries"
    = Some (JsNumber 2)
  ∧ StripeClientFactory.config client !! "webhookConfig" = None.
Proof. repeat split; vm_compute; reflexivity. Qed.

Lemma decorators_keep_path
    (decos : list (gmap string JsValue → gmap string JsValue))
    (class : gmap string JsValue) (v : JsValue) :
  Forall (λ deco, ∀ class,
            deco class !! ControllerHack.PATH_METADATA
            = class !! ControllerHack.PATH_METADATA) decos →
  class !! ControllerHack.PATH_METADATA = Some v →
  foldl (λ class deco, deco class) class decos
    !! ControllerHack.PATH_METADATA = Some v.
Proof.
  intros Hdecos. revert class.
  induction Hdecos as [|deco decos Hdeco _ IH]; intros class Hclass; [done|].
  simpl. apply IH. by rewrite Hdeco.
Qed.

(** X16: the path of the webhook controller. When the configured
    decorators leave the path metadata alone, the controller's path after
    the factory ran is the configured prefix if there is a non-empty one,
    and ["stripe"] otherwise (no webhook configuration, no prefix, or the
    empty prefix): it is never the empty string, and whatever path the
    class had before is overwritten. *)
Theorem controller_path :
  ∀ (webhookConfig : option ControllerHack.ControllerConfig)
    (StripeWebhookController : gmap string JsValue),
    let configured := webhookConfig ≫= ControllerHack.controllerPrefix in
    Forall (λ deco, ∀ class,
              deco class !! ControllerHack.PATH_METADATA
              = class !! ControllerHack.PATH_METADATA)
           (default [] (webhookConfig ≫= ControllerHack.decorators)) →
    ∃ path,
      ControllerHack.useFactory webhookConfig StripeWebhookController
        !! ControllerHack.PATH_METADATA = Some (JsString path)
      ∧ path ≠ ""
      ∧ path = (if truthy configured then default "" configured else "stripe").
Proof.
  intros webhookConfig class configured Hdecos.
  exists (if truthy configured then default "" configured else "stripe").
  split; [|split; [|done]].
  - unfold ControllerHack.useFactory. fold configured.
    apply decorators_keep_path; [done|]. apply lookup_insert_eq.
  - by destruct configured as [[|a s]|].
Qed.

Lemma controller_path_witness :
  ∃ path,
    ControllerHack.useFactory
      (Some {| ControllerHack.controllerPrefix := Some "";
               ControllerHack.decorators := Some [useGuards] |})
      {[ ControllerHack.PATH_METADATA := JsString "old" ]}
      !! ControllerHack.PATH_METADATA = Some (JsString path)
    ∧ path ≠ ""
    ∧ path = "stripe".
Proof.
  refine (controller_path
            (Some {| ControllerHack.controllerPrefix := Some "";
                     ControllerHack.decorators := Some [useGuards] |})
            {[ ControllerHack.PATH_METADATA := JsString "old" ]} _).
  constructor; [|constructor].
  intros class. unfold useGuards. by apply lookup_insert_ne.
Defined.
